(** * AirPods battery CLI: protocol decoder, device registry, scanner lifecycle

  A shallow embedding of
    - [Source/protocol/AppleContinuityParser.{hpp,cpp}] and
      [Source/protocol/AirPodsData.{hpp,cpp}] (the modular decoder and
      the telemetry record),
    - [parse_airpods_data], [to_hex_string] and
      [AdvertisementWatcher::OnReceived] of
      [Source/airpods_battery_cli_v5.cpp] (the monolithic scanner),
    - [Source/ble/BleDevice.{hpp,cpp}] (the device record and its texts),
    - the device collection, the path from an advertisement to it and
      the automatic-restart loop of [Source/ble/WinRtBleScanner.{hpp,cpp}],
    - [hex_to_bytes] of [Source/test_protocol_parser.cpp].

  Bytes are [Byte.byte]; C++ integers are [Z] with the conversions
  written out; [std::vector::operator[]] is a fallible read, so that
  "the decoder never faults" is a statement and not a convention. *)

From Stdlib Require Import ZArith List String Ascii Bool Lia.
From Stdlib Require Import Strings.Byte.
From Stdlib Require Import Sorting.Permutation.
Import ListNotations.

Local Open Scope Z_scope.

(** ** C++ values and the fallible-read monad *)

Module Cxx.

(** The result of running a piece of C++: a value, or undefined
    behaviour (here only an out-of-range [operator[]]). *)
Inductive outcome (A : Type) : Type :=
| Ok (a : A)
| Fault.
Arguments Ok {A} a.
Arguments Fault {A}.

Definition bind {A B : Type} (m : outcome A) (k : A -> outcome B) : outcome B :=
  match m with
  | Ok a => k a
  | Fault => Fault
  end.

(** [uint8_t] read as a number. *)
Definition u8 (b : byte) : Z := Z.of_N (Byte.to_N b).

(** Conversion to [uint16_t]. *)
Definition to_uint16 (z : Z) : Z := z mod 65536.

(** [std::vector<uint8_t>::size()]. *)
Definition size (v : list byte) : Z := Z.of_nat (List.length v).

(** [v[i]]: defined only inside the vector. *)
Definition at_ (v : list byte) (i : nat) : outcome Z :=
  match nth_error v i with
  | Some b => Ok (u8 b)
  | None => Fault
  end.

(** One uppercase hexadecimal digit. *)
Definition hex_digit_upper (d : Z) : ascii :=
  match d with
  | 0 => "0" | 1 => "1" | 2 => "2" | 3 => "3" | 4 => "4"
  | 5 => "5" | 6 => "6" | 7 => "7" | 8 => "8" | 9 => "9"
  | 10 => "A" | 11 => "B" | 12 => "C" | 13 => "D" | 14 => "E"
  | _ => "F"
  end%char.

(** The digits of a non-negative number in base 16, most significant
    first, without padding ([std::hex << std::uppercase], [%X]).
    Sixteen digits cover every 64-bit value. *)
Fixpoint hex_upper_aux (fuel : nat) (n : Z) (acc : string) : string :=
  match fuel with
  | O => acc
  | S fuel' =>
      let acc' := String (hex_digit_upper (n mod 16)) acc in
      if n / 16 =? 0 then acc' else hex_upper_aux fuel' (n / 16) acc'
  end.

Definition hex_upper (n : Z) : string := hex_upper_aux 16 n EmptyString.

Fixpoint repeat_char (c : ascii) (n : nat) : string :=
  match n with
  | O => EmptyString
  | S n' => String c (repeat_char c n')
  end.

(** Field width with a fill character: pads on the left, never
    truncates ([std::setfill(c) << std::setw(w)], [%0wX]). *)
Definition pad_left (w : nat) (c : ascii) (s : string) : string :=
  (repeat_char c (w - String.length s) ++ s)%string.

End Cxx.

Import Cxx.

Notation "x <- m ;; k" := (Cxx.bind m (fun x => k))
(at level 61, m at next level, right associativity).

(** ** Protocol/AirPodsData.hpp *)

Record BatteryLevels : Type := mkBatteryLevels {
  left : Z;
  right : Z;
  case_ : Z
}.

Record ChargingState : Type := mkChargingState {
  leftCharging : bool;
  rightCharging : bool;
  caseCharging : bool
}.

Record DeviceState : Type := mkDeviceState {
  leftInEar : bool;
  rightInEar : bool;
  bothInCase : bool;
  lidOpen : bool
}.

Record AirPodsData : Type := mkAirPodsData {
  model : string;
  modelId : string;
  batteryLevels : BatteryLevels;
  chargingState : ChargingState;
  deviceState : DeviceState;
  broadcastingEar : string
}.

(** ** Protocol/AppleContinuityParser.cpp *)

Module AppleContinuityParser.

Definition PROXIMITY_PAIRING_TYPE : Z := 0x07.
Definition MIN_DATA_LENGTH : Z := 8.

Definition ParseModelName (modelId : Z) : string :=
  if modelId =? 0x2014 then "AirPods Pro 2"
  else if modelId =? 0x200E then "AirPods Pro"
  else if modelId =? 0x2013 then "AirPods 3"
  else if modelId =? 0x200F then "AirPods 2"
  else "Unknown AirPods".

(** [ss << "0x" << hex << uppercase << setfill('0') << setw(4) << modelId] *)
Definition FormatModelId (modelId : Z) : string :=
  ("0x" ++ pad_left 4 "0"%char (hex_upper modelId))%string.

Definition ExtractBatteryLevels (batteryData statusByte : Z) : BatteryLevels :=
  let caseBattery := Z.shiftr (Z.land statusByte 0xF0) 4 * 10 in
  let leftBattery := Z.shiftr (Z.land batteryData 0xF0) 4 * 10 in
  let rightBattery := Z.land batteryData 0x0F * 10 in
  mkBatteryLevels leftBattery rightBattery caseBattery.

Definition ExtractChargingState (statusByte : Z) : ChargingState :=
  let caseCharging := negb (Z.land statusByte 0x04 =? 0) in
  let leftCharging := negb (Z.land statusByte 0x02 =? 0) in
  let rightCharging := negb (Z.land statusByte 0x01 =? 0) in
  mkChargingState leftCharging rightCharging caseCharging.

Definition ExtractDeviceState (lidData : Z) : DeviceState :=
  let lidOpen := negb (Z.land lidData 0x04 =? 0) in
  let leftInEar := negb (Z.land lidData 0x02 =? 0) in
  let rightInEar := negb (Z.land lidData 0x01 =? 0) in
  let bothInCase := negb leftInEar && negb rightInEar in
  mkDeviceState leftInEar rightInEar bothInCase lidOpen.

Definition DetermineBroadcastingEar : string := "right".

(** [std::nullopt] is [None]; a read outside the vector is [Fault]. *)
Definition Parse (data : list byte) : outcome (option AirPodsData) :=
  if size data <? MIN_DATA_LENGTH then Ok None
  else
    d0 <- at_ data 0 ;;
    if negb (d0 =? PROXIMITY_PAIRING_TYPE) then Ok None
    else
      d4 <- at_ data 4 ;;
      d3 <- at_ data 3 ;;
      let modelId := to_uint16 (Z.lor (Z.shiftl d4 8) d3) in
      statusByte <- at_ data 5 ;;
      batteryData <- at_ data 6 ;;
      lidData <- at_ data 7 ;;
      let model := ParseModelName modelId in
      let modelIdStr := FormatModelId modelId in
      let batteryLevels := ExtractBatteryLevels batteryData statusByte in
      let chargingState := ExtractChargingState statusByte in
      let deviceState := ExtractDeviceState lidData in
      let broadcastingEar := DetermineBroadcastingEar in
      Ok (Some (mkAirPodsData model modelIdStr batteryLevels chargingState
                              deviceState broadcastingEar)).

(** The record built at the end of [Parse] from the five bytes read. *)
Definition telemetry (b3 b4 b5 b6 b7 : byte) : AirPodsData :=
  let modelId := to_uint16 (Z.lor (Z.shiftl (u8 b4) 8) (u8 b3)) in
  mkAirPodsData (ParseModelName modelId) (FormatModelId modelId)
                (ExtractBatteryLevels (u8 b6) (u8 b5))
                (ExtractChargingState (u8 b5))
                (ExtractDeviceState (u8 b7))
                DetermineBroadcastingEar.

(** [&&] short-circuits: [data[0]] is read only after the length test. *)
Definition CanParse (data : list byte) : outcome bool :=
  if MIN_DATA_LENGTH <=? size data then
    d0 <- at_ data 0 ;;
    Ok (d0 =? PROXIMITY_PAIRING_TYPE)
  else Ok false.

End AppleContinuityParser.

(** ** airpods_battery_cli_v5.cpp *)

Module V5.

Record AirPodsData : Type := mkAirPodsData {
  model : string;
  model_id : string;
  left_battery : Z;
  right_battery : Z;
  case_battery : Z;
  left_charging : bool;
  right_charging : bool;
  case_charging : bool;
  left_in_ear : bool;
  right_in_ear : bool;
  both_in_case : bool;
  lid_open : bool;
  broadcasting_ear : string
}.

(** [sprintf_s(model_hex, "0x%04X", model_id)] into [char model_hex[8]]:
    the text is stored when it fits with its terminator. *)
Definition sprintf_0x04X (bufsize : nat) (v : Z) : outcome string :=
  let s := ("0x" ++ pad_left 4 "0"%char (hex_upper v))%string in
  if (String.length s <? bufsize)%nat then Ok s else Fault.

Definition parse_airpods_data (data : list byte) : outcome (option AirPodsData) :=
  if size data <? 8 then Ok None
  else
    d0 <- at_ data 0 ;;
    if negb (d0 =? 0x07) then Ok None
    else
      d4 <- at_ data 4 ;;
      d3 <- at_ data 3 ;;
      let model_id := to_uint16 (Z.lor (Z.shiftl d4 8) d3) in
      let model :=
        if model_id =? 0x2014 then "AirPods Pro 2"%string
        else if model_id =? 0x200E then "AirPods Pro"%string
        else if model_id =? 0x2013 then "AirPods 3"%string
        else if model_id =? 0x200F then "AirPods 2"%string
        else "Unknown AirPods"%string in
      model_hex <- sprintf_0x04X 8 model_id ;;
      status <- at_ data 5 ;;
      battery_data <- at_ data 6 ;;
      lid_data <- at_ data 7 ;;
      let case_battery := Z.shiftr (Z.land status 0xF0) 4 * 10 in
      let left_battery := Z.shiftr (Z.land battery_data 0xF0) 4 * 10 in
      let right_battery := Z.land battery_data 0x0F * 10 in
      let case_charging := negb (Z.land status 0x04 =? 0) in
      let left_charging := negb (Z.land status 0x02 =? 0) in
      let right_charging := negb (Z.land status 0x01 =? 0) in
      let lid_open := negb (Z.land lid_data 0x04 =? 0) in
      let left_in_ear := negb (Z.land lid_data 0x02 =? 0) in
      let right_in_ear := negb (Z.land lid_data 0x01 =? 0) in
      let both_in_case := negb left_in_ear && negb right_in_ear in
      Ok (Some (mkAirPodsData model model_hex left_battery right_battery
                              case_battery left_charging right_charging
                              case_charging left_in_ear right_in_ear
                              both_in_case lid_open "right")).

End V5.

(** ** ble/BleDevice.hpp *)

Record BleDevice : Type := mkBleDevice {
  deviceId : string;
  address : Z;
  rssi : Z;
  manufacturerData : list byte;
  timestamp : Z;
  airpodsData : option AirPodsData
}.

(** ** ble/WinRtBleScanner.cpp: the device collection and its callback

  A callback is a [std::function<void(const BleDevice&)>]; what it
  does is visible only through the observer's own state [W].  The
  collection is touched under [devicesMutex_], so each operation is
  one atomic transition. *)

Module Registry.
Section WithObserver.

Variable W : Type.

Definition DeviceCallback : Type := BleDevice -> W -> W.

Record t : Type := mk {
  devices_ : list BleDevice;
  deviceCallback_ : option DeviceCallback
}.

Definition init : t := mk [] None.

Definition GetDevices (r : t) : list BleDevice := devices_ r.

Definition GetDeviceCount (r : t) : nat := List.length (devices_ r).

Definition ClearDevices (r : t) : t := mk [] (deviceCallback_ r).

(** [deviceCallback_ = std::move(callback);] *)
Definition RegisterCallback (callback : DeviceCallback) (r : t) : t :=
  mk (devices_ r) (Some callback).

(** [devices_.push_back(device); if (deviceCallback_) deviceCallback_(device);] *)
Definition AddDevice (device : BleDevice) (rw : t * W) : t * W :=
  let (r, w) := rw in
  let r' := mk (devices_ r ++ [device]) (deviceCallback_ r) in
  match deviceCallback_ r' with
  | Some callback => (r', callback device w)
  | None => (r', w)
  end.

(** Calls made on a scanner, in program order. *)
Inductive op : Type :=
| Add (device : BleDevice)
| Register (callback : DeviceCallback)
| Clear.

Definition exec (rw : t * W) (o : op) : t * W :=
  match o with
  | Add device => AddDevice device rw
  | Register callback => (RegisterCallback callback (fst rw), snd rw)
  | Clear => (ClearDevices (fst rw), snd rw)
  end.

Definition run (ops : list op) (rw : t * W) : t * W :=
  fold_left exec ops rw.

(** The callbacks passed to [RegisterCallback], oldest first. *)
Fixpoint registered (ops : list op) : list DeviceCallback :=
  match ops with
  | [] => []
  | Register callback :: ops' => callback :: registered ops'
  | _ :: ops' => registered ops'
  end.

(** What a fan-out over a list of callbacks would do to the observer. *)
Definition notify_all (cbs : list DeviceCallback) (device : BleDevice) (w : W) : W :=
  fold_left (fun w' cb => cb device w') cbs w.

(** What the single callback slot does to the observer. *)
Definition notify_slot (slot : option DeviceCallback) (device : BleDevice) (w : W) : W :=
  match slot with
  | Some callback => callback device w
  | None => w
  end.

(** The callback in the slot after a run of calls: the one most
    recently registered, or what the slot held before. *)
Fixpoint last_registered (ops : list op) (slot : option DeviceCallback)
  : option DeviceCallback :=
  match ops with
  | [] => slot
  | Register callback :: ops' => last_registered ops' (Some callback)
  | _ :: ops' => last_registered ops' slot
  end.

(** "Add invokes every callback registered so far, in registration
    order": the statement of a fan-out, for comparison with the code. *)
Definition fans_out_to_all : Prop :=
  forall (ops : list op) (device : BleDevice) (w0 : W),
    let rw := run ops (init, w0) in
    snd (AddDevice device rw) = notify_all (registered ops) device (snd rw).

End WithObserver.

Arguments mk {W} _ _.
Arguments init {W}.
Arguments devices_ {W} _.
Arguments deviceCallback_ {W} _.
Arguments GetDevices {W} _.
Arguments GetDeviceCount {W} _.
Arguments ClearDevices {W} _.
Arguments RegisterCallback {W} _ _.
Arguments AddDevice {W} _ _.
Arguments Add {W} _.
Arguments Register {W} _.
Arguments Clear {W}.
Arguments exec {W} _ _.
Arguments run {W} _ _.
Arguments registered {W} _.
Arguments notify_all {W} _ _ _.
Arguments notify_slot {W} _ _ _.
Arguments last_registered {W} _ _.

(** Two observers that write their number into a shared journal. *)
Definition journal (n : nat) : DeviceCallback (list nat) :=
  fun _ w => w ++ [n].

Definition two_registrations : list (op (list nat)) :=
  [Register (journal 1); Register (journal 2)].

Definition some_device : BleDevice :=
  mkBleDevice "0000a1b2c3d4" 0xa1b2c3d4 (-60) [x07; x19; x01] 0 None.

End Registry.

(** ** ble/WinRtBleScanner.cpp: Start, Stop and the restart loop

  [[
  void OnScannerStopped(...) {
      ...
      if (!destroyRequested_) {
          do {
              stopCondition_.wait_until(lock, lastStartTime_.load() + RETRY_INTERVAL);
          } while (!stopRequested_ && !Start());
      } else destroyCondition_.notify_all();
  }
  ]]

  The handler runs on a thread of the advertisement source while
  [Start], [Stop] and the destructor run on the consumer's thread.
  The two flags are [std::atomic<bool>] and nothing else is shared
  between the loop and [Stop], so an execution is an interleaving of
  the handler's atomic steps with the consumer's calls.  The length
  of the timed wait is left to the schedule. *)

Module Lifecycle.

(** Where the handler thread stands. *)
Inductive hpc : Type :=
| HIdle        (* not running [OnScannerStopped] *)
| HEntry       (* about to test [destroyRequested_] *)
| HWait        (* inside [wait_until] *)
| HCheck       (* about to load [stopRequested_] in the loop condition *)
| HCall        (* the load gave false: about to call [Start()] *)
| HStartClear  (* in [Start()]: about to store [stopRequested_ = false] *)
| HWatcher.    (* in [Start()]: about to run [bleWatcher_.Start()] *)

Inductive event : Type :=
| EvStopFlag     (* [Stop()] stored [stopRequested_ = true] *)
| EvRetryStart   (* the restart loop called [Start()] *)
| EvUserStart.   (* the consumer called [Start()] *)

Record t : Type := mk {
  stopRequested_ : bool;
  destroyRequested_ : bool;
  pc : hpc;
  log : list event   (* oldest first *)
}.

(** The constructor's state. *)
Definition init : t := mk false false HIdle [].

(** How a call of the watcher ([bleWatcher_.Start()], [bleWatcher_.Stop()])
    ends.  [Start()] and [Stop()] catch [const std::exception&] and
    nothing else, so the two ways of throwing differ: a [std::exception]
    becomes the result [false], anything else leaves the function. *)
Inductive watcher_result : Type :=
| Returns       (* the call returns normally *)
| ThrowsStd     (* it throws an exception derived from [std::exception] *)
| ThrowsOther.  (* it throws anything else *)

(** One scheduling decision.  The [watcher_result] says how the watcher
    call made in that step, if any, ends. *)
Inductive label : Type :=
| SourceStopped                  (* the source delivers "stopped": the handler starts *)
| Handler (r : watcher_result)   (* the handler thread takes its next step *)
| UserStart (r : watcher_result) (* the consumer runs [Start()] *)
| UserStop (r : watcher_result)  (* the consumer runs [Stop()] *)
| Destroy.                       (* the consumer runs the destructor *)

(** [Stop()]: [stopRequested_ = true; ... bleWatcher_.Stop();] *)
Definition Stop (s : t) : t :=
  mk true (destroyRequested_ s) (pc s) (log s ++ [EvStopFlag]).

(** [Start()] from the consumer: [stopRequested_ = false; ... bleWatcher_.Start();] *)
Definition Start (s : t) : t :=
  mk false (destroyRequested_ s) (pc s) (log s ++ [EvUserStart]).

(** [if (!destroyRequested_) { destroyRequested_ = true; Stop(); ... }] *)
Definition Destructor (s : t) : t :=
  if destroyRequested_ s then s
  else Stop (mk (stopRequested_ s) true (pc s) (log s)).

Definition at_pc (p : hpc) (s : t) : t :=
  mk (stopRequested_ s) (destroyRequested_ s) p (log s).

(** The handler's next atomic step.  An exception that leaves
    [Start()] also leaves the loop and [OnScannerStopped]. *)
Definition OnScannerStopped_step (r : watcher_result) (s : t) : option t :=
  match pc s with
  | HIdle => None
  | HEntry =>
      if destroyRequested_ s then Some (at_pc HIdle s)
      else Some (at_pc HWait s)
  | HWait => Some (at_pc HCheck s)
  | HCheck =>
      if stopRequested_ s then Some (at_pc HIdle s)
      else Some (at_pc HCall s)
  | HCall =>
      Some (mk (stopRequested_ s) (destroyRequested_ s) HStartClear
               (log s ++ [EvRetryStart]))
  | HStartClear =>
      Some (mk false (destroyRequested_ s) HWatcher (log s))
  | HWatcher =>
      match r with
      | Returns => Some (at_pc HIdle s)      (* [true]: the loop ends *)
      | ThrowsStd => Some (at_pc HWait s)    (* caught, [false]: wait again *)
      | ThrowsOther => Some (at_pc HIdle s)  (* not caught: the handler is left *)
      end
  end.

Definition step (l : label) (s : t) : option t :=
  match l with
  | SourceStopped =>
      match pc s with
      | HIdle => Some (at_pc HEntry s)
      | _ => None
      end
  | Handler r => OnScannerStopped_step r s
  | UserStart _ => Some (Start s)
  | UserStop _ => Some (Stop s)
  | Destroy => Some (Destructor s)
  end.

Fixpoint run (sched : list label) (s : t) : option t :=
  match sched with
  | [] => Some s
  | l :: sched' =>
      match step l s with
      | Some s' => run sched' s'
      | None => None
      end
  end.

Definition is_user_start (l : label) : bool :=
  match l with UserStart _ => true | _ => false end.

Definition is_retry (e : event) : bool :=
  match e with EvRetryStart => true | _ => false end.

(** Does the log show a restart-loop [Start()] after a [Stop()] set the flag? *)
Fixpoint retry_after_stop (evs : list event) : bool :=
  match evs with
  | [] => false
  | EvStopFlag :: evs' => existsb is_retry evs'
  | _ :: evs' => retry_after_stop evs'
  end.

(** The handler is not in the window between reading the flag clear
    in the loop condition and clearing it again in [Start()]. *)
Definition outside_window (p : hpc) : bool :=
  match p with
  | HIdle | HEntry | HWait | HCheck | HWatcher => true
  | HCall | HStartClear => false
  end.

(** The flag is set and the handler is outside that window. *)
Definition stop_pending (s : t) : Prop :=
  stopRequested_ s = true /\ outside_window (pc s) = true.

(** The events a step adds to the log. *)
Definition adds_no_retry (s s' : t) : Prop :=
  exists evs, log s' = log s ++ evs /\ existsb is_retry evs = false.

Definition no_user_start (sched : list label) : bool :=
  forallb (fun l => negb (is_user_start l)) sched.

(** "Once [Stop()] has set the flag, the restart loop issues no further
    [Start()]", over all executions in which the consumer does not call
    [Start()] itself. *)
Definition never_restarts_after_stop : Prop :=
  forall (sched : list label) (s : t),
    no_user_start sched = true ->
    run sched init = Some s ->
    retry_after_stop (log s) = false.

(** The source reports "stopped"; the loop waits, finds the flag clear
    and is about to call [Start()] when the consumer's [Stop()] runs. *)
Definition stop_between_check_and_call : list label :=
  [SourceStopped; Handler Returns; Handler Returns; Handler Returns;
   UserStop Returns; Handler Returns].

(** The same, followed to the end of the loop's [Start()]: it clears the
    flag and the watcher starts. *)
Definition stop_lost : list label :=
  stop_between_check_and_call ++ [Handler Returns; Handler Returns].

(** [Stop()] runs while the loop is inside [Start()], before the store
    [stopRequested_ = false]; the watcher then fails to start. *)
Definition stop_during_start : list label :=
  [SourceStopped; Handler Returns; Handler Returns; Handler Returns; Handler Returns;
   UserStop Returns; Handler Returns; Handler ThrowsStd;
   Handler Returns; Handler Returns; Handler Returns].

End Lifecycle.

(** ** Vocabulary of the statements *)

(** The byte at an offset, as a number (0 outside the payload). *)
Definition byte_at (data : list byte) (i : nat) : Z := u8 (nth i data x00).

Definition high_nibble (b : Z) : Z := b / 16.
Definition low_nibble (b : Z) : Z := b mod 16.

(** The 16-bit model identifier: low byte at offset 3, high byte at offset 4. *)
Definition model_id_of (data : list byte) : Z :=
  256 * byte_at data 4 + byte_at data 3.

Definition known_model_ids : list Z := [0x2014; 0x200E; 0x2013; 0x200F].

(** The payload has the layout the decoder accepts. *)
Definition well_formed (data : list byte) : Prop :=
  (8 <= List.length data)%nat /\ nth_error data 0 = Some x07.

(** The offsets the decoder reads. *)
Definition offsets_read : list nat := [0; 3; 4; 5; 6; 7]%nat.

(** Field-for-field agreement of the two decoders' records. *)
Definition agree (a : AirPodsData) (v : V5.AirPodsData) : Prop :=
  model a = V5.model v /\
  modelId a = V5.model_id v /\
  left (batteryLevels a) = V5.left_battery v /\
  right (batteryLevels a) = V5.right_battery v /\
  case_ (batteryLevels a) = V5.case_battery v /\
  leftCharging (chargingState a) = V5.left_charging v /\
  rightCharging (chargingState a) = V5.right_charging v /\
  caseCharging (chargingState a) = V5.case_charging v /\
  leftInEar (deviceState a) = V5.left_in_ear v /\
  rightInEar (deviceState a) = V5.right_in_ear v /\
  bothInCase (deviceState a) = V5.both_in_case v /\
  lidOpen (deviceState a) = V5.lid_open v /\
  broadcastingEar a = V5.broadcasting_ear v.

Definition decoders_agree (x : outcome (option AirPodsData))
                        (y : outcome (option V5.AirPodsData)) : Prop :=
  match x, y with
  | Ok None, Ok None => True
  | Ok (Some a), Ok (Some v) => agree a v
  | _, _ => False
  end.

(** The capture used by [test_protocol_parser.cpp]. *)
Definition payload_pro2 : list byte :=
  [x07; x19; x01; x14; x20; x0b; x88; x8f].

(** An AirPods Pro payload whose nibbles are 10 (case), 15 (left) and
    11 (right), with only the left earbud in ear. *)
Definition payload_high_nibbles : list byte :=
  [x07; x00; x00; x0e; x20; xa4; xfb; x02].

(** The capture with other bytes at offsets 1 and 2 and a longer tail. *)
Definition payload_pro2_variant : list byte :=
  [x07; xff; x55; x14; x20; x0b; x88; x8f; x01; x02; x03].

(** The loop has called [Start()], cleared the flag and is about to
    run the watcher; no stop yet. *)
Definition loop_in_watcher : Lifecycle.t :=
  Lifecycle.mk false false Lifecycle.HWatcher [Lifecycle.EvRetryStart].

(** The watcher call fails with a [std::exception]; the loop waits and
    leaves at its check; the source then reports "stopped" again, and
    the new round leaves at its check too. *)
Definition watcher_then_rounds : list Lifecycle.label :=
  [Lifecycle.Handler Lifecycle.ThrowsStd; Lifecycle.Handler Lifecycle.Returns;
   Lifecycle.Handler Lifecycle.Returns; Lifecycle.SourceStopped;
   Lifecycle.Handler Lifecycle.Returns; Lifecycle.Handler Lifecycle.Returns;
   Lifecycle.Handler Lifecycle.Returns].

(** ** Text and number conversions used outside the decoder *)

Module Text.

(** One lowercase hexadecimal digit. *)
Definition hex_digit_lower (d : Z) : ascii :=
  match d with
  | 0 => "0" | 1 => "1" | 2 => "2" | 3 => "3" | 4 => "4"
  | 5 => "5" | 6 => "6" | 7 => "7" | 8 => "8" | 9 => "9"
  | 10 => "a" | 11 => "b" | 12 => "c" | 13 => "d" | 14 => "e"
  | _ => "f"
  end%char.

(** Base-16 digits, lowercase ([std::hex] alone, [%x]). *)
Fixpoint hex_lower_aux (fuel : nat) (n : Z) (acc : string) : string :=
  match fuel with
  | O => acc
  | S fuel' =>
      let acc' := String (hex_digit_lower (n mod 16)) acc in
      if n / 16 =? 0 then acc' else hex_lower_aux fuel' (n / 16) acc'
  end.

Definition hex_lower (n : Z) : string := hex_lower_aux 16 n EmptyString.

(** [isspace] in the "C" locale. *)
Definition isspace (c : ascii) : bool :=
  let n := nat_of_ascii c in
  (n =? 32)%nat || ((9 <=? n)%nat && (n <=? 13)%nat).

(** The value of a character as a digit in base 16. *)
Definition hex_value (c : ascii) : option Z :=
  let n := Z.of_nat (nat_of_ascii c) in
  if (48 <=? n) && (n <=? 57) then Some (n - 48)
  else if (97 <=? n) && (n <=? 102) then Some (n - 87)
  else if (65 <=? n) && (n <=? 70) then Some (n - 55)
  else None.

Fixpoint skip_space (s : string) : string :=
  match s with
  | String c s' => if isspace c then skip_space s' else s
  | EmptyString => s
  end.

(** The longest run of base-16 digits at the front of [s], read as a
    number on top of [acc]. *)
Fixpoint hex_run (s : string) (acc : Z) : Z :=
  match s with
  | String c s' =>
      match hex_value c with
      | Some d => hex_run s' (acc * 16 + d)
      | None => acc
      end
  | EmptyString => acc
  end.

(** [long] has 32 bits on the platform of the WinRT headers. *)
Definition LONG_MAX : Z := 2147483647.
Definition LONG_MIN : Z := -2147483648.

(** [strtol(s, nullptr, 16)]: blanks, an optional sign, an optional
    [0x] in front of a digit, then digits; without digits the result
    is 0; out of range it is [LONG_MAX] or [LONG_MIN]. *)
Definition strtol16 (s : string) : Z :=
  let s1 := skip_space s in
  let '(negative, s2) :=
    match s1 with
    | String "-"%char r => (true, r)
    | String "+"%char r => (false, r)
    | _ => (false, s1)
    end in
  let s3 :=
    match s2 with
    | String "0"%char (String x (String c r)) =>
        if (Ascii.eqb x "x" || Ascii.eqb x "X")%bool then
          match hex_value c with
          | Some _ => String c r
          | None => s2
          end
        else s2
    | _ => s2
    end in
  let v := hex_run s3 0 in
  if negative then (if - v <? LONG_MIN then LONG_MIN else - v)
  else (if LONG_MAX <? v then LONG_MAX else v).

(** [static_cast<uint8_t>(z)]. *)
Definition to_uint8 (z : Z) : byte :=
  match Byte.of_N (Z.to_N (z mod 256)) with
  | Some b => b
  | None => x00
  end.

End Text.

(** ** protocol/AirPodsData.cpp *)

Definition IsAnyCharging (d : AirPodsData) : bool :=
  leftCharging (chargingState d) || rightCharging (chargingState d)
  || caseCharging (chargingState d).

Definition IsAnyInEar (d : AirPodsData) : bool :=
  leftInEar (deviceState d) || rightInEar (deviceState d).

(** [std::min({left, right, case_})] *)
Definition GetLowestBatteryLevel (d : AirPodsData) : Z :=
  fold_left Z.min
    [right (batteryLevels d); case_ (batteryLevels d)]
    (left (batteryLevels d)).

(** ** ble/BleDevice.cpp *)

(** The constructor; [now] is [std::chrono::system_clock::now()]. *)
Definition BleDevice_new (now : Z) (deviceId : string) (address rssi : Z)
                         (manufacturerData : list byte) : BleDevice :=
  mkBleDevice deviceId address rssi manufacturerData now None.

Definition HasAirPodsData (d : BleDevice) : bool :=
  match airpodsData d with
  | Some _ => true
  | None => false
  end.

(** The loop [for (int i = 5; i >= 0; --i)] with [k = i + 1] rounds left. *)
Fixpoint GetFormattedAddress_loop (k : nat) (address : Z) (ss : string) : string :=
  match k with
  | O => ss
  | S i =>
      let ss1 := if Z.of_nat i <? 5 then (ss ++ ":")%string else ss in
      let piece := Z.land (Z.shiftr address (Z.of_nat i * 8)) 0xFF in
      GetFormattedAddress_loop i address
        (ss1 ++ pad_left 2 "0"%char (hex_upper piece))%string
  end.

Definition GetFormattedAddress (d : BleDevice) : string :=
  GetFormattedAddress_loop 6 (address d) EmptyString.

(** [ss << std::setw(2) << static_cast<int>(byte)] with fill ['0'], lowercase. *)
Definition put_hex_byte (ss : string) (b : byte) : string :=
  (ss ++ pad_left 2 "0"%char (Text.hex_lower (u8 b)))%string.

Definition GetManufacturerDataHex (d : BleDevice) : string :=
  match manufacturerData d with
  | [] => EmptyString
  | _ => fold_left put_hex_byte (manufacturerData d) EmptyString
  end.

(** [operator==] and [operator!=] *)
Definition BleDevice_eq (lhs rhs : BleDevice) : bool :=
  address lhs =? address rhs.

Definition BleDevice_ne (lhs rhs : BleDevice) : bool :=
  negb (BleDevice_eq lhs rhs).

(** ** test_protocol_parser.cpp and the v5 helper *)

(** [hex_to_bytes]: [substr(i, 2)] for i = 0, 2, 4, ... *)
Fixpoint hex_to_bytes (hex : string) : list byte :=
  match hex with
  | EmptyString => []
  | String c1 EmptyString =>
      [Text.to_uint8 (Text.strtol16 (String c1 EmptyString))]
  | String c1 (String c2 rest) =>
      Text.to_uint8 (Text.strtol16 (String c1 (String c2 EmptyString)))
      :: hex_to_bytes rest
  end.

(** [to_hex_string] of airpods_battery_cli_v5.cpp *)
Definition to_hex_string (data : list byte) : string :=
  match data with
  | [] => EmptyString
  | _ =>
      fold_left
        (fun ss b => (ss ++ pad_left 2 "0"%char (Text.hex_lower (u8 b)))%string)
        data EmptyString
  end.

(** ** ble/WinRtBleScanner.cpp: from an advertisement to the collection *)

Module Scanner.

Definition APPLE_COMPANY_ID : Z := 76.

Definition EPOCH_DIFFERENCE : Z := 11644473600.
Definition TICKS_PER_SECOND : Z := 10000000.

(** Signed 64-bit arithmetic: a result outside the type is undefined. *)
Definition int64_checked (z : Z) : outcome Z :=
  if (- 2 ^ 63 <=? z) && (z <? 2 ^ 63) then Ok z else Fault.

(** What an advertisement event carries: signal strength, WinRT
    timestamp (100 ns ticks since 1601), radio address and the
    manufacturer sections (company id, bytes) in order. *)
Record Advertisement : Type := mkAdvertisement {
  RawSignalStrengthInDBm : Z;
  Timestamp : Z;
  BluetoothAddress : Z;
  ManufacturerData : list (Z * list byte)
}.

Definition with_timestamp (d : BleDevice) (ts : Z) : BleDevice :=
  mkBleDevice (deviceId d) (address d) (rssi d) (manufacturerData d) ts
              (airpodsData d).

Definition with_airpodsData (d : BleDevice) (a : option AirPodsData) : BleDevice :=
  mkBleDevice (deviceId d) (address d) (rssi d) (manufacturerData d)
              (timestamp d) a.

Section WithClock.

(** The period of [std::chrono::system_clock], in nanoseconds. *)
Variable clock_period_ns : Z.

(** [seconds(s) + nanoseconds(n)] is computed in nanoseconds of type
    [int64_t]; [duration_cast] to the clock's duration truncates. *)
Definition ConvertWinRtTime (winrtTime : Z) : outcome Z :=
  let ticks := winrtTime in
  let seconds := Z.quot ticks TICKS_PER_SECOND - EPOCH_DIFFERENCE in
  let nanoseconds := Z.rem ticks TICKS_PER_SECOND * 100 in
  seconds_ns <- int64_checked (seconds * 1000000000) ;;
  total <- int64_checked (seconds_ns + nanoseconds) ;;
  Ok (Z.quot total clock_period_ns).

Variable W : Type.

(** [now] is the clock reading taken by the [BleDevice] constructor. *)
Definition ProcessManufacturerData
    (now address rssi timestamp : Z) (manufacturerData : list byte)
    (companyId : Z) (rw : Registry.t W * W) : outcome (Registry.t W * W) :=
  if companyId =? APPLE_COMPANY_ID then
    let deviceId := pad_left 12 "0"%char (Text.hex_lower address) in
    let device := BleDevice_new now deviceId address rssi manufacturerData in
    ts <- ConvertWinRtTime timestamp ;;
    let device := with_timestamp device ts in
    parsed <- AppleContinuityParser.Parse manufacturerData ;;
    let device := with_airpodsData device parsed in
    Ok (Registry.AddDevice device rw)
  else Ok rw.

(** The loop over [args.Advertisement().ManufacturerData()]. *)
Fixpoint OnAdvertisementReceived_loop
    (now rssi timestamp address : Z) (sections : list (Z * list byte))
    (rw : Registry.t W * W) : outcome (Registry.t W * W) :=
  match sections with
  | [] => Ok rw
  | (companyId, data) :: rest =>
      rw' <- ProcessManufacturerData now address rssi timestamp data companyId rw ;;
      OnAdvertisementReceived_loop now rssi timestamp address rest rw'
  end.

Definition OnAdvertisementReceived (now : Z) (args : Advertisement)
    (rw : Registry.t W * W) : outcome (Registry.t W * W) :=
  let rssi := RawSignalStrengthInDBm args in
  let timestamp := Timestamp args in
  let address := BluetoothAddress args in
  OnAdvertisementReceived_loop now rssi timestamp address
    (ManufacturerData args) rw.

(** The device stored for one Apple section, given its converted time
    and its decoded telemetry. *)
Definition device_of (address rssi ts : Z) (data : list byte)
                     (parsed : option AirPodsData) : BleDevice :=
  mkBleDevice (pad_left 12 "0"%char (Text.hex_lower address))
              address rssi data ts parsed.

End WithClock.

Definition is_apple (section : Z * list byte) : bool :=
  fst section =? APPLE_COMPANY_ID.

(** The relation between an Apple section of an advertisement and the
    device stored for it: the section's payload and its decoding, the
    advertisement's address and signal strength, and the timestamp
    moved to the 1970 epoch in units of the clock's period. *)
Definition stored_for (clock_period_ns address rssi ticks : Z)
    (section : Z * list byte) (d : BleDevice) : Prop :=
  exists parsed,
    AppleContinuityParser.Parse (snd section) = Ok parsed /\
    d = device_of address rssi
          (Z.quot (100 * (ticks - 116444736000000000)) clock_period_ns)
          (snd section) parsed.

(** The timestamps whose conversion stays inside [int64_t]. *)
Definition convertible (ticks : Z) : Prop :=
  24211015640000000 <= ticks < 208678456360000000.

End Scanner.

(** ** airpods_battery_cli_v5.cpp: AdvertisementWatcher::OnReceived *)

Module V5Watcher.

Record BLEDevice : Type := mkBLEDevice {
  device_id : string;
  address : Z;
  rssi : Z;
  manufacturer_data : list byte;
  airpods_data : option V5.AirPodsData;
  timestamp : Z
}.

(** [unordered_map::try_emplace]: the first value of a key stays. *)
Definition try_emplace (m : list (Z * list byte)) (k : Z) (v : list byte)
  : list (Z * list byte) :=
  if existsb (fun e => fst e =? k) m then m else m ++ [(k, v)].

Definition manufacturerDataMap (sections : list (Z * list byte))
  : list (Z * list byte) :=
  fold_left (fun m e => try_emplace m (fst e) (snd e)) sections [].

(** [sprintf_s(addr_str, "%012llx", device.address)] into [char addr_str[32]]. *)
Definition sprintf_012llx (bufsize : nat) (v : Z) : outcome string :=
  let s := pad_left 12 "0"%char (Text.hex_lower v) in
  if (String.length s <? bufsize)%nat then Ok s else Fault.

Section WithIterationOrder.

(** The order in which a range-for visits an [unordered_map]. *)
Variable bucket_order : list (Z * list byte) -> list (Z * list byte).

Fixpoint OnReceived_loop (rssi timestamp address : Z)
    (entries : list (Z * list byte)) (devices : list BLEDevice)
  : outcome (list BLEDevice) :=
  match entries with
  | [] => Ok devices
  | (companyId, data) :: rest =>
      if companyId =? 76 then
        addr_str <- sprintf_012llx 32 address ;;
        parsed <- V5.parse_airpods_data data ;;
        let device := mkBLEDevice addr_str address rssi data parsed timestamp in
        OnReceived_loop rssi timestamp address rest (devices ++ [device])
      else OnReceived_loop rssi timestamp address rest devices
  end.

Definition OnReceived (args : Scanner.Advertisement) (devices : list BLEDevice)
  : outcome (list BLEDevice) :=
  let rssi := Scanner.RawSignalStrengthInDBm args in
  let timestamp := Scanner.Timestamp args in
  let address := Scanner.BluetoothAddress args in
  let map := manufacturerDataMap (Scanner.ManufacturerData args) in
  OnReceived_loop rssi timestamp address (bucket_order map) devices.

End WithIterationOrder.

(** What the v5 watcher stores for a map entry of company 76. *)
Definition v5_stored_for (address rssi ticks : Z)
    (entry : Z * list byte) (d : BLEDevice) : Prop :=
  exists parsed,
    V5.parse_airpods_data (snd entry) = Ok parsed /\
    d = mkBLEDevice (pad_left 12 "0"%char (Text.hex_lower address))
                    address rssi (snd entry) parsed ticks.

End V5Watcher.

(** The two scanners' records describe the same observation. *)
Definition same_observation (d : BleDevice) (v : V5Watcher.BLEDevice) : Prop :=
  deviceId d = V5Watcher.device_id v /\
  address d = V5Watcher.address v /\
  rssi d = V5Watcher.rssi v /\
  manufacturerData d = V5Watcher.manufacturer_data v /\
  match airpodsData d, V5Watcher.airpods_data v with
  | None, None => True
  | Some a, Some b => agree a b
  | _, _ => False
  end.

(** ** Schedules of the restart loop on its own *)

(** One round in which the watcher throws a [std::exception]: check,
    call, clear the flag, [Start()] catches it and gives false, wait. *)
Definition failed_round : list Lifecycle.label :=
  [Lifecycle.Handler Lifecycle.Returns; Lifecycle.Handler Lifecycle.Returns;
   Lifecycle.Handler Lifecycle.Returns; Lifecycle.Handler Lifecycle.ThrowsStd;
   Lifecycle.Handler Lifecycle.Returns].

(** The round whose watcher call ends with [r]: check, call, clear the
    flag, the watcher call. *)
Definition last_round (r : Lifecycle.watcher_result) : list Lifecycle.label :=
  [Lifecycle.Handler Lifecycle.Returns; Lifecycle.Handler Lifecycle.Returns;
   Lifecycle.Handler Lifecycle.Returns; Lifecycle.Handler r].

(** The source reports "stopped" and the handler runs alone: the test
    of the destroy flag, the wait, [k] failed rounds and a last round. *)
Definition retry_schedule (k : nat) (r : Lifecycle.watcher_result)
  : list Lifecycle.label :=
  [Lifecycle.SourceStopped; Lifecycle.Handler Lifecycle.Returns;
   Lifecycle.Handler Lifecycle.Returns]
  ++ List.concat (repeat failed_round k) ++ last_round r.

(** The destructor has run and the handler is not inside the loop. *)
Definition torn_down (s : Lifecycle.t) : Prop :=
  Lifecycle.destroyRequested_ s = true /\
  (Lifecycle.pc s = Lifecycle.HIdle \/ Lifecycle.pc s = Lifecycle.HEntry).

(** The radio of [Registry.some_device] seen again, weaker and later. *)
Definition some_device_again : BleDevice :=
  mkBleDevice "0000a1b2c3d4" 0xa1b2c3d4 (-85) [x07; x19] 7 None.

(** An advertisement with two Apple sections around a foreign one. *)
Definition advertisement_two_apple : Scanner.Advertisement :=
  Scanner.mkAdvertisement (-60) 133500000000000000 0xa1b2c3d4
    [(76, payload_pro2); (6, [x01; x09]); (76, [x10; x05; x0b])].

(** ** History of a run of calls on the collection *)

(** The devices passed to [AddDevice], oldest first. *)
Fixpoint added {W : Type} (ops : list (Registry.op W)) : list BleDevice :=
  match ops with
  | [] => []
  | Registry.Add device :: ops' => device :: added ops'
  | _ :: ops' => added ops'
  end.

Definition is_clear {W : Type} (o : Registry.op W) : bool :=
  match o with Registry.Clear => true | _ => false end.

Definition is_register {W : Type} (o : Registry.op W) : bool :=
  match o with Registry.Register _ => true | _ => false end.

(** After the destructor: the source reports "stopped" twice and the
    consumer calls [Start()] in between. *)
Definition after_destructor : list Lifecycle.label :=
  [Lifecycle.SourceStopped; Lifecycle.Handler Lifecycle.Returns;
   Lifecycle.UserStart Lifecycle.Returns;
   Lifecycle.SourceStopped; Lifecycle.Handler Lifecycle.Returns].

(** ** ble/WinRtBleScanner.cpp: the collection under concurrent callers

    For its caller [AddDevice] is two steps: the [push_back] inside the
    critical section of [devicesMutex_], and then, outside it, the test
    of the callback slot and the call.  [ClearDevices] is one critical
    section and [RegisterCallback] one assignment, outside any lock.
    The callers run on any threads, so an execution is an interleaving
    of their steps.  The statements about interleavings are about
    threads that call [AddDevice]: the callback is registered before. *)

Module Threads.
Section WithObserver.

Variable W : Type.

Record thread : Type := mkThread {
  midway : option BleDevice;    (* past the push of [AddDevice]: the device to report *)
  todo : list (Registry.op W)   (* the calls still to make, in program order *)
}.

Record system : Type := mkSystem {
  registry : Registry.t W;
  observer : W;
  threads : list thread
}.

(** [{ std::lock_guard lock{devicesMutex_}; devices_.push_back(device); }] *)
Definition push_back (device : BleDevice) (r : Registry.t W) : Registry.t W :=
  Registry.mk (Registry.devices_ r ++ [device]) (Registry.deviceCallback_ r).

(** [if (deviceCallback_) deviceCallback_(device);] *)
Definition notify (device : BleDevice) (r : Registry.t W) (w : W) : W :=
  match Registry.deviceCallback_ r with
  | Some callback => callback device w
  | None => w
  end.

(** The next atomic step of one thread. *)
Definition thread_step (r : Registry.t W) (w : W) (th : thread)
  : option (Registry.t W * W * thread) :=
  match midway th with
  | Some device => Some (r, notify device r w, mkThread None (todo th))
  | None =>
      match todo th with
      | [] => None
      | Registry.Add device :: rest =>
          Some (push_back device r, w, mkThread (Some device) rest)
      | Registry.Register callback :: rest =>
          Some (Registry.RegisterCallback callback r, w, mkThread None rest)
      | Registry.Clear :: rest =>
          Some (Registry.ClearDevices r, w, mkThread None rest)
      end
  end.

Fixpoint replace_nth {A : Type} (i : nat) (x : A) (l : list A) : list A :=
  match l, i with
  | [], _ => []
  | _ :: l', O => x :: l'
  | y :: l', S i' => y :: replace_nth i' x l'
  end.

(** The scheduler lets thread [i] take its next step. *)
Definition step (i : nat) (s : system) : option system :=
  match nth_error (threads s) i with
  | None => None
  | Some th =>
      match thread_step (registry s) (observer s) th with
      | None => None
      | Some (r', w', th') =>
          Some (mkSystem r' w' (replace_nth i th' (threads s)))
      end
  end.

Fixpoint run (sched : list nat) (s : system) : option system :=
  match sched with
  | [] => Some s
  | i :: sched' =>
      match step i s with
      | Some s' => run sched' s'
      | None => None
      end
  end.

(** One thread per program, none of them started. *)
Definition start (r : Registry.t W) (w : W)
    (programs : list (list (Registry.op W))) : system :=
  mkSystem r w (map (mkThread None) programs).

Definition thread_done (th : thread) : bool :=
  match midway th, todo th with
  | None, [] => true
  | _, _ => false
  end.

(** Every thread has returned from its last call. *)
Definition finished (s : system) : bool := forallb thread_done (threads s).

(** The calls the threads have yet to make. *)
Definition calls (ths : list thread) : list (Registry.op W) :=
  flat_map todo ths.

(** The devices of the [AddDevice] calls not yet begun. *)
Definition pending (ths : list thread) : list BleDevice :=
  flat_map (fun th => added (todo th)) ths.

(** The devices not yet reported to the callback: pushed and waiting,
    or not yet begun. *)
Definition unnotified (ths : list thread) : list BleDevice :=
  flat_map (fun th =>
              match midway th with
              | Some device => device :: added (todo th)
              | None => added (todo th)
              end) ths.

End WithObserver.

Arguments mkThread {W} _ _.
Arguments midway {W} _.
Arguments todo {W} _.
Arguments mkSystem {W} _ _ _.
Arguments registry {W} _.
Arguments observer {W} _.
Arguments threads {W} _.
Arguments push_back {W} _ _.
Arguments notify {W} _ _ _.
Arguments thread_step {W} _ _ _.
Arguments step {W} _ _.
Arguments run {W} _ _.
Arguments start {W} _ _ _.
Arguments thread_done {W} _.
Arguments finished {W} _.
Arguments calls {W} _.
Arguments pending {W} _.
Arguments unnotified {W} _.

End Threads.

(** Two callers: the first adds the same device twice, the second adds
    another sighting of that radio. *)
Definition two_callers : list (list (Registry.op (list nat))) :=
  [[Registry.Add Registry.some_device; Registry.Add Registry.some_device];
   [Registry.Add (mkBleDevice "0000a1b2c3d4" 0xa1b2c3d4 (-85) [x07; x19] 7 None)]].

(** Both push before either reports; the first caller then adds again. *)
Definition interleaved : list nat := [0; 1; 1; 0; 0; 0]%nat.

(** * Properties of the decoder *)

Section Bytes.

Lemma u8_range (b : byte) : 0 <= u8 b < 256.
Proof.
  unfold u8. pose proof (Byte.to_N_bounded b) as Hb.
  split; [apply N2Z.is_nonneg|].
  apply N2Z.inj_le in Hb. simpl in Hb. lia.
Qed.

Lemma u8_inj (b c : byte) : u8 b = u8 c -> b = c.
Proof.
  unfold u8. intros H. apply N2Z.inj in H.
  pose proof (Byte.of_to_N b) as Eb. rewrite H, Byte.of_to_N in Eb.
  congruence.
Qed.

Lemma u8_is_7 (b : byte) : (u8 b =? 0x07) = true <-> b = x07.
Proof.
  rewrite Z.eqb_eq. split.
  - intros H. apply u8_inj. exact H.
  - intros ->. reflexivity.
Qed.

(** [(b & 0xF0) >> 4] is the high nibble. *)
Lemma high_nibble_bits (z : Z) :
  0 <= z < 256 -> Z.shiftr (Z.land z 0xF0) 4 = high_nibble z.
Proof.
  intros Hz. unfold high_nibble.
  rewrite Z.shiftr_div_pow2 by lia.
  change (2 ^ 4) with 16.
  apply Z.bits_inj'. intros n Hn.
  change 16 with (2 ^ 4).
  rewrite !Z.div_pow2_bits by lia.
  rewrite Z.land_spec.
  destruct (Z.testbit z (n + 4)) eqn:E; [|reflexivity].
  assert (n + 4 < 8) as Hlt.
  { destruct (Z_lt_le_dec (n + 4) 8) as [|Hge]; [assumption|exfalso].
    rewrite Z.bits_above_log2 in E; [discriminate|lia|].
    destruct (Z.eq_dec z 0) as [->|]; [simpl; lia|].
    apply Z.log2_lt_pow2; [lia|].
    apply Z.lt_le_trans with (2 ^ 8); [simpl; lia|].
    apply Z.pow_le_mono_r; lia. }
  assert (n = 0 \/ n = 1 \/ n = 2 \/ n = 3) as Hc by lia.
  destruct Hc as [->|[->|[->| ->]]]; reflexivity.
Qed.

(** [b & 0x0F] is the low nibble. *)
Lemma low_nibble_bits (z : Z) : Z.land z 0x0F = low_nibble z.
Proof.
  unfold low_nibble. change 0x0F with (Z.ones 4).
  rewrite Z.land_ones by lia. reflexivity.
Qed.

(** [(b & (1 << k)) != 0] reads bit [k]; checked on every byte. *)
Lemma flag_bits (b : byte) :
  negb (Z.land (u8 b) 0x04 =? 0) = Z.testbit (u8 b) 2 /\
  negb (Z.land (u8 b) 0x02 =? 0) = Z.testbit (u8 b) 1 /\
  negb (Z.land (u8 b) 0x01 =? 0) = Z.testbit (u8 b) 0.
Proof. destruct b; vm_compute; repeat split. Qed.

(** [(hi << 8) | lo], stored in a [uint16_t], is [256 * hi + lo]. *)
Lemma model_id_value (hi lo : Z) :
  0 <= hi < 256 -> 0 <= lo < 256 ->
  to_uint16 (Z.lor (Z.shiftl hi 8) lo) = 256 * hi + lo.
Proof.
  intros Hhi Hlo. unfold to_uint16.
  assert (Z.land (Z.shiftl hi 8) lo = 0) as Hdisj.
  { apply Z.bits_inj'. intros n Hn.
    rewrite Z.land_spec, Z.bits_0.
    destruct (Z_lt_le_dec n 8) as [Hs|Hb].
    - rewrite Z.shiftl_spec_low by lia. reflexivity.
    - destruct (Z.eq_dec lo 0) as [->|Hnz].
      + rewrite Z.bits_0. apply andb_false_r.
      + rewrite (Z.bits_above_log2 lo n); [apply andb_false_r|lia|].
        apply Z.log2_lt_pow2; [lia|].
        apply Z.lt_le_trans with (2 ^ 8); [simpl; lia|].
        apply Z.pow_le_mono_r; lia. }
  pose proof (Z.add_lor_land (Z.shiftl hi 8) lo) as Hadd.
  rewrite Hdisj, Z.add_0_r in Hadd. rewrite Hadd.
  rewrite Z.shiftl_mul_pow2 by lia. change (2 ^ 8) with 256.
  rewrite Z.mod_small; lia.
Qed.

End Bytes.

Section Formatting.

Lemma string_length_app (s1 s2 : string) :
  String.length (s1 ++ s2) = (String.length s1 + String.length s2)%nat.
Proof.
  induction s1 as [|c s1 IH]; simpl; [reflexivity|].
  now rewrite IH.
Qed.

Lemma repeat_char_length (c : ascii) (n : nat) :
  String.length (repeat_char c n) = n.
Proof. induction n as [|n IH]; simpl; congruence. Qed.

(** A 16-bit value prints as one to four hexadecimal digits. *)
Lemma hex_upper_length_u16 (v : Z) :
  0 <= v < 65536 -> (1 <= String.length (hex_upper v) <= 4)%nat.
Proof.
  intros Hv. unfold hex_upper. cbn [hex_upper_aux].
  destruct (v / 16 =? 0) eqn:E1; [simpl; lia|].
  destruct (v / 16 / 16 =? 0) eqn:E2; [simpl; lia|].
  destruct (v / 16 / 16 / 16 =? 0) eqn:E3; [simpl; lia|].
  assert (v / 16 / 16 / 16 / 16 = 0) as Hz.
  { rewrite !Z.div_div by lia. apply Z.div_small. lia. }
  rewrite Hz. simpl. lia.
Qed.

(** With [setw(4)] and fill ['0'] the text always has four digits. *)
Lemma pad_left_length_u16 (v : Z) :
  0 <= v < 65536 ->
  String.length (pad_left 4 "0"%char (hex_upper v)) = 4%nat.
Proof.
  intros Hv. pose proof (hex_upper_length_u16 v Hv) as Hl.
  unfold pad_left. rewrite string_length_app, repeat_char_length. lia.
Qed.

(** The text of a 16-bit value fits [char model_hex[8]]. *)
Lemma sprintf_fits (v : Z) :
  0 <= v < 65536 ->
  V5.sprintf_0x04X 8 v = Ok (AppleContinuityParser.FormatModelId v).
Proof.
  intros Hv. unfold V5.sprintf_0x04X, AppleContinuityParser.FormatModelId.
  cbn zeta.
  rewrite string_length_app, (pad_left_length_u16 v Hv).
  reflexivity.
Qed.

End Formatting.

Section ParseShape.

Import AppleContinuityParser.

Lemma size_below_min (data : list byte) :
  (size data <? MIN_DATA_LENGTH) = (List.length data <? 8)%nat.
Proof.
  unfold size, MIN_DATA_LENGTH.
  destruct (Nat.ltb_spec (List.length data) 8);
    [apply Z.ltb_lt | apply Z.ltb_ge]; lia.
Qed.

Lemma size_reaches_min (data : list byte) :
  (MIN_DATA_LENGTH <=? size data) = (8 <=? List.length data)%nat.
Proof.
  unfold size, MIN_DATA_LENGTH.
  destruct (Nat.leb_spec 8 (List.length data));
    [apply Z.leb_le | apply Z.leb_gt]; lia.
Qed.

(** A vector of at least eight bytes, opened up. *)
Lemma vector_ge8 (data : list byte) :
  (8 <= List.length data)%nat ->
  exists b0 b1 b2 b3 b4 b5 b6 b7 rest,
    data = b0 :: b1 :: b2 :: b3 :: b4 :: b5 :: b6 :: b7 :: rest.
Proof.
  intros H.
  do 8 (destruct data as [|? data]; [simpl in H; lia|]).
  repeat eexists.
Qed.

Lemma Parse_short (data : list byte) :
  (List.length data < 8)%nat -> Parse data = Ok None.
Proof.
  intros H. unfold Parse. rewrite size_below_min.
  apply Nat.ltb_lt in H. now rewrite H.
Qed.

Lemma Parse_cons8 (b0 b1 b2 b3 b4 b5 b6 b7 : byte) (rest : list byte) :
  Parse (b0 :: b1 :: b2 :: b3 :: b4 :: b5 :: b6 :: b7 :: rest) =
  if u8 b0 =? PROXIMITY_PAIRING_TYPE
  then Ok (Some (telemetry b3 b4 b5 b6 b7))
  else Ok None.
Proof.
  unfold Parse. rewrite size_below_min.
  cbn [List.length Nat.ltb Nat.leb at_ nth_error bind].
  destruct (u8 b0 =? PROXIMITY_PAIRING_TYPE); reflexivity.
Qed.

(** Every result of [Parse] comes from a well-formed payload and is
    the record of its bytes 3 to 7. *)
Lemma Parse_Some_inv (data : list byte) (t : AirPodsData) :
  Parse data = Ok (Some t) ->
  exists b1 b2 b3 b4 b5 b6 b7 rest,
    data = x07 :: b1 :: b2 :: b3 :: b4 :: b5 :: b6 :: b7 :: rest /\
    t = telemetry b3 b4 b5 b6 b7.
Proof.
  intros HP.
  destruct (Nat.lt_ge_cases (List.length data) 8) as [Hs|Hl].
  - rewrite (Parse_short data Hs) in HP. discriminate.
  - destruct (vector_ge8 data Hl)
      as (b0 & b1 & b2 & b3 & b4 & b5 & b6 & b7 & rest & ->).
    rewrite Parse_cons8 in HP.
    destruct (u8 b0 =? PROXIMITY_PAIRING_TYPE) eqn:E; [|discriminate].
    apply u8_is_7 in E. subst b0.
    injection HP as <-. repeat eexists.
Qed.

End ParseShape.

(** ** The claims about the decoder *)

Section Decoder.

Import AppleContinuityParser.

(** C1. For every byte sequence, [CanParse] returns a boolean (it never
    reads outside the vector, whatever the length, the empty vector
    included), and that boolean is true exactly when the sequence has
    at least 8 bytes and its byte 0 is 0x07.  [CanParse] is a function
    of its argument alone: it has no state to change. *)
Theorem CanParse_iff_well_formed (data : list byte) :
  exists b : bool,
    CanParse data = Ok b /\ (b = true <-> well_formed data).
Proof.
  unfold CanParse, well_formed. rewrite size_reaches_min.
  destruct (Nat.leb_spec 8 (List.length data)) as [Hl|Hs].
  - destruct data as [|b0 data]; [simpl in Hl; lia|].
    cbn [at_ nth_error bind].
    exists (u8 b0 =? PROXIMITY_PAIRING_TYPE). split; [reflexivity|].
    unfold PROXIMITY_PAIRING_TYPE. rewrite u8_is_7.
    split.
    + intros ->. split; [assumption|reflexivity].
    + intros [_ H]. congruence.
  - exists false. split; [reflexivity|].
    split; [discriminate|]. intros [H _]. lia.
Qed.

(** C2. [Parse] returns no-result exactly when the sequence is shorter
    than 8 bytes or its byte 0 is not 0x07.  On every other input it
    returns a telemetry record; when the model identifier is none of
    the four known ones the record's model is "Unknown AirPods".
    [Parse] never faults. *)
Theorem Parse_rejects_iff_malformed (data : list byte) :
  (Parse data = Ok None <->
     (List.length data < 8)%nat \/ nth_error data 0 <> Some x07) /\
  (Parse data <> Ok None ->
     exists t, Parse data = Ok (Some t) /\
       (~ In (model_id_of data) known_model_ids ->
          model t = "Unknown AirPods"%string)) /\
  Parse data <> Fault.
Proof.
  destruct (Nat.lt_ge_cases (List.length data) 8) as [Hs|Hl].
  - rewrite (Parse_short data Hs).
    split; [|split]; [split; auto | intros H; now elim H | discriminate].
  - destruct (vector_ge8 data Hl)
      as (b0 & b1 & b2 & b3 & b4 & b5 & b6 & b7 & rest & ->).
    rewrite Parse_cons8. cbn [nth_error].
    destruct (u8 b0 =? PROXIMITY_PAIRING_TYPE) eqn:E.
    + apply u8_is_7 in E. subst b0.
      split; [|split]; [| |discriminate].
      * split; [discriminate|]. intros [H|H]; [lia|congruence].
      * intros _. eexists. split; [reflexivity|].
        unfold model_id_of, byte_at, known_model_ids. cbn [nth].
        intros Hunk. cbn [telemetry model].
        rewrite (model_id_value _ _ (u8_range b4) (u8_range b3)).
        unfold ParseModelName.
        repeat match goal with
               | |- context [?x =? ?y] =>
                   destruct (Z.eqb_spec x y) as [Heq|_];
                   [exfalso; apply Hunk; rewrite Heq; simpl; tauto|]
               end.
        reflexivity.
    + split; [|split]; [| |discriminate].
      * split; [|reflexivity]. intros _. right. intros H.
        injection H as ->. discriminate.
      * intros H. now elim H.
Qed.

(** C3. The capture 07 19 01 14 20 0b 88 8f decodes to AirPods Pro 2,
    "0x2014", left 80, right 80, case 0, left and right charging, case
    not charging, lid open, both earbuds in ear, not both in case. *)
Theorem Parse_payload_pro2 :
  Parse payload_pro2 =
  Ok (Some (mkAirPodsData "AirPods Pro 2" "0x2014"
              (mkBatteryLevels 80 80 0)
              (mkChargingState true true false)
              (mkDeviceState true true false true)
              "right")).
Proof. vm_compute. reflexivity. Qed.

(** C4. For every payload [Parse] accepts, case = high nibble of byte 5
    times 10, left = high nibble of byte 6 times 10, right = low nibble
    of byte 6 times 10.  So a nibble from 0 to 10 gives a percentage in
    [0,100], and a nibble from 11 to 15 is not clamped: it gives a
    value from 110 to 150. *)
Theorem battery_levels_from_nibbles (data : list byte) (t : AirPodsData) :
  Parse data = Ok (Some t) ->
  let bl := batteryLevels t in
  let nc := high_nibble (byte_at data 5) in
  let nl := high_nibble (byte_at data 6) in
  let nr := low_nibble (byte_at data 6) in
  (case_ bl = nc * 10 /\ left bl = nl * 10 /\ right bl = nr * 10) /\
  (0 <= nc <= 15 /\ 0 <= nl <= 15 /\ 0 <= nr <= 15) /\
  (forall n pct,
      In (n, pct) [(nc, case_ bl); (nl, left bl); (nr, right bl)] ->
      (0 <= n <= 10 -> 0 <= pct <= 100) /\
      (11 <= n <= 15 -> 110 <= pct <= 150)).
Proof.
  intros HP.
  destruct (Parse_Some_inv data t HP)
    as (b1 & b2 & b3 & b4 & b5 & b6 & b7 & rest & -> & ->).
  unfold byte_at, telemetry, ExtractBatteryLevels.
  cbn [nth batteryLevels case_ left right].
  pose proof (u8_range b5) as H5. pose proof (u8_range b6) as H6.
  rewrite (high_nibble_bits _ H5), (high_nibble_bits _ H6), low_nibble_bits.
  assert (0 <= high_nibble (u8 b5) <= 15 /\ 0 <= high_nibble (u8 b6) <= 15 /\
          0 <= low_nibble (u8 b6) <= 15) as Hr.
  { unfold high_nibble, low_nibble.
    pose proof (Z.mod_pos_bound (u8 b6) 16).
    repeat split; try lia;
      try (apply Z.div_pos; lia);
      (apply Z.lt_succ_r, Z.div_lt_upper_bound; lia). }
  split; [repeat split|split; [exact Hr|]].
  intros n pct Hin. simpl in Hin.
  destruct Hin as [E|[E|[E|[]]]]; injection E as <- <-; lia.
Qed.

Lemma battery_levels_from_nibbles_witness :
  exists t,
    Parse payload_high_nibbles = Ok (Some t) /\
    case_ (batteryLevels t) = 100 /\
    left (batteryLevels t) = 150 /\
    right (batteryLevels t) = 110.
Proof.
  eexists. split; [reflexivity|].
  destruct (battery_levels_from_nibbles payload_high_nibbles _ eq_refl)
    as [(Hc & Hl & Hr) _].
  rewrite Hc, Hl, Hr. repeat split.
Defined.

(** C5. For every successful decode, leftInEar is bit 1 and rightInEar
    is bit 0 of byte 7, and bothInCase = !(leftInEar || rightInEar). *)
Theorem bothInCase_derived (data : list byte) (t : AirPodsData) :
  Parse data = Ok (Some t) ->
  let ds := deviceState t in
  leftInEar ds = Z.testbit (byte_at data 7) 1 /\
  rightInEar ds = Z.testbit (byte_at data 7) 0 /\
  bothInCase ds = negb (leftInEar ds || rightInEar ds).
Proof.
  intros HP.
  destruct (Parse_Some_inv data t HP)
    as (b1 & b2 & b3 & b4 & b5 & b6 & b7 & rest & -> & ->).
  unfold byte_at, telemetry, ExtractDeviceState.
  cbn [nth deviceState leftInEar rightInEar bothInCase].
  destruct (flag_bits b7) as (_ & H1 & H0).
  rewrite H1, H0. repeat split.
  now rewrite negb_orb.
Qed.

Lemma bothInCase_derived_witness :
  exists t,
    Parse payload_high_nibbles = Ok (Some t) /\
    leftInEar (deviceState t) = true /\
    rightInEar (deviceState t) = false /\
    bothInCase (deviceState t) = false.
Proof.
  eexists. split; [reflexivity|].
  destruct (bothInCase_derived payload_high_nibbles _ eq_refl)
    as (Hl & Hr & Hb).
  rewrite Hb, Hl, Hr. repeat split.
Defined.

(** C8. Two byte sequences of at least 8 bytes each that agree at
    offsets 0, 3, 4, 5, 6 and 7 decode to equal results, whatever their
    bytes at 1, 2 and beyond 7 and whatever their lengths. *)
Theorem Parse_depends_on_six_offsets (d1 d2 : list byte) :
  (8 <= List.length d1)%nat ->
  (8 <= List.length d2)%nat ->
  (forall i, In i offsets_read -> nth_error d1 i = nth_error d2 i) ->
  Parse d1 = Parse d2.
Proof.
  intros H1 H2 Hagree.
  destruct (vector_ge8 d1 H1)
    as (a0 & a1 & a2 & a3 & a4 & a5 & a6 & a7 & r1 & ->).
  destruct (vector_ge8 d2 H2)
    as (c0 & c1 & c2 & c3 & c4 & c5 & c6 & c7 & r2 & ->).
  assert (forall i, In i offsets_read ->
            nth i (a0 :: a1 :: a2 :: a3 :: a4 :: a5 :: a6 :: a7 :: r1) x00 =
            nth i (c0 :: c1 :: c2 :: c3 :: c4 :: c5 :: c6 :: c7 :: r2) x00)
    as Hnth.
  { intros i Hi. specialize (Hagree i Hi).
    unfold offsets_read in Hi. simpl in Hi.
    destruct Hi as [<-|[<-|[<-|[<-|[<-|[<-|[]]]]]]];
      simpl in Hagree |- *; congruence. }
  pose proof (Hnth 0%nat) as E0. pose proof (Hnth 3%nat) as E3.
  pose proof (Hnth 4%nat) as E4. pose proof (Hnth 5%nat) as E5.
  pose proof (Hnth 6%nat) as E6. pose proof (Hnth 7%nat) as E7.
  unfold offsets_read in *. simpl in E0, E3, E4, E5, E6, E7.
  rewrite !Parse_cons8.
  rewrite E0, E3, E4, E5, E6, E7 by tauto.
  reflexivity.
Qed.

Lemma Parse_depends_on_six_offsets_witness :
  payload_pro2 <> payload_pro2_variant /\
  Parse payload_pro2 = Parse payload_pro2_variant.
Proof.
  split; [discriminate|].
  apply (Parse_depends_on_six_offsets payload_pro2 payload_pro2_variant).
  - simpl. lia.
  - simpl. lia.
  - intros i Hi. unfold offsets_read in Hi. simpl in Hi.
    destruct Hi as [<-|[<-|[<-|[<-|[<-|[<-|[]]]]]]]; reflexivity.
Defined.

(** C9. For every successful decode the broadcasting side is the fixed
    text "right", whatever the bytes. *)
Theorem broadcastingEar_fixed (data : list byte) (t : AirPodsData) :
  Parse data = Ok (Some t) -> broadcastingEar t = "right"%string.
Proof.
  intros HP.
  destruct (Parse_Some_inv data t HP)
    as (b1 & b2 & b3 & b4 & b5 & b6 & b7 & rest & _ & ->).
  reflexivity.
Qed.

Lemma broadcastingEar_fixed_witness :
  exists t,
    Parse payload_high_nibbles = Ok (Some t) /\
    broadcastingEar t = "right"%string.
Proof.
  eexists. split; [reflexivity|].
  apply (broadcastingEar_fixed payload_high_nibbles). reflexivity.
Defined.

(** C10. On every byte sequence the v5 function [parse_airpods_data]
    and [AppleContinuityParser::Parse] both return no-result or both
    return telemetry that agrees in every field, the model-id text
    included; neither faults. *)
Theorem decoders_equivalent (data : list byte) :
  decoders_agree (Parse data) (V5.parse_airpods_data data).
Proof.
  destruct (Nat.lt_ge_cases (List.length data) 8) as [Hs|Hl].
  - rewrite (Parse_short data Hs).
    unfold V5.parse_airpods_data.
    change 8 with MIN_DATA_LENGTH. rewrite size_below_min.
    apply Nat.ltb_lt in Hs. rewrite Hs. exact I.
  - destruct (vector_ge8 data Hl)
      as (b0 & b1 & b2 & b3 & b4 & b5 & b6 & b7 & rest & ->).
    rewrite Parse_cons8.
    unfold V5.parse_airpods_data.
    change 8 with MIN_DATA_LENGTH at 1. rewrite size_below_min.
    cbn [List.length Nat.ltb Nat.leb at_ nth_error bind].
    unfold PROXIMITY_PAIRING_TYPE.
    destruct (u8 b0 =? 0x07); cbn [negb]; [|exact I].
    rewrite sprintf_fits.
    + cbn [bind decoders_agree]. unfold agree, telemetry.
      repeat split.
    + unfold to_uint16. apply Z.mod_pos_bound. lia.
Qed.

End Decoder.

(** * Properties of the device collection *)

Section RegistryFacts.

Import Registry.

Context {W : Type}.

Lemma run_snoc (ops : list (op W)) (o : op W) (rw : t W * W) :
  run (ops ++ [o]) rw = exec (run ops rw) o.
Proof. unfold run. now rewrite fold_left_app. Qed.

(** The slot holds the most recently registered callback. *)
Lemma slot_after_run (ops : list (op W)) :
  forall rw : t W * W,
    deviceCallback_ (fst (run ops rw)) =
    last_registered ops (deviceCallback_ (fst rw)).
Proof.
  induction ops as [|o ops IH]; intros [r w]; [reflexivity|].
  change (run (o :: ops) (r, w)) with (run ops (exec (r, w) o)).
  rewrite IH.
  destruct o as [device|callback|]; cbn [exec last_registered fst snd].
  - unfold AddDevice. cbn [deviceCallback_].
    destruct (deviceCallback_ r); reflexivity.
  - reflexivity.
  - reflexivity.
Qed.

Lemma AddDevice_devices (device : BleDevice) (rw : t W * W) :
  devices_ (fst (AddDevice device rw)) = devices_ (fst rw) ++ [device].
Proof.
  destruct rw as [r w]. unfold AddDevice. cbn [deviceCallback_ fst].
  destruct (deviceCallback_ r); reflexivity.
Qed.

Lemma AddDevice_observer (device : BleDevice) (rw : t W * W) :
  snd (AddDevice device rw) =
  notify_slot (deviceCallback_ (fst rw)) device (snd rw).
Proof.
  destruct rw as [r w]. unfold AddDevice, notify_slot.
  cbn [deviceCallback_ fst snd].
  destruct (deviceCallback_ r); reflexivity.
Qed.

(** A run of [Add] calls appends its devices, duplicates included. *)
Lemma run_adds (ds : list BleDevice) :
  forall rw : t W * W,
    devices_ (fst (run (map Add ds) rw)) = devices_ (fst rw) ++ ds.
Proof.
  induction ds as [|d ds IH]; intros rw; cbn [map].
  - now rewrite app_nil_r.
  - change (run (Add d :: map Add ds) rw)
      with (run (map Add ds) (AddDevice d rw)).
    rewrite IH, AddDevice_devices, <- app_assoc. reflexivity.
Qed.

End RegistryFacts.

(** * The collection under concurrent callers *)

Section ThreadsFacts.

Import Threads.

Context {W : Type}.

Lemma replace_nth_split {A : Type} (l : list A) :
  forall (i : nat) (x : A),
    nth_error l i = Some x ->
    exists l1 l2,
      l = l1 ++ x :: l2 /\ forall y, replace_nth i y l = l1 ++ y :: l2.
Proof.
  induction l as [|a l IH]; intros [|i] x H; try discriminate.
  - injection H as ->. exists [], l. split; reflexivity.
  - destruct (IH i x H) as (l1 & l2 & -> & Hr).
    exists (a :: l1), l2. split; [reflexivity|].
    intros y. cbn [replace_nth app]. now rewrite Hr.
Qed.

(** What one step does to the collection, when no [ClearDevices] is
    left to run: it appends the device of the [AddDevice] it begins,
    or nothing. *)
Lemma step_appends (i : nat) (s s' : system W) :
  step i s = Some s' ->
  existsb is_clear (calls (threads s)) = false ->
  existsb is_clear (calls (threads s')) = false /\
  exists new,
    Registry.devices_ (registry s') = Registry.devices_ (registry s) ++ new /\
    Permutation (new ++ pending (threads s')) (pending (threads s)).
Proof.
  unfold step. destruct (nth_error (threads s) i) as [th|] eqn:Hth;
    [|discriminate].
  destruct (replace_nth_split _ _ _ Hth) as (l1 & l2 & Hl & Hr).
  destruct (thread_step (registry s) (observer s) th)
    as [[[r' w'] th']|] eqn:Hts; [|discriminate].
  intros E. injection E as <-. cbn [threads registry]. rewrite Hr, Hl.
  unfold calls, pending. rewrite !flat_map_app. cbn [flat_map].
  rewrite !existsb_app. intros Hnc.
  apply orb_false_iff in Hnc. destruct Hnc as [H1 Hnc].
  apply orb_false_iff in Hnc. destruct Hnc as [Ht H2].
  unfold thread_step in Hts. destruct th as [[d|] td]; cbn [midway todo] in *.
  - injection Hts as <- <- <-. cbn [todo]. rewrite H1, Ht, H2.
    split; [reflexivity|]. exists []. rewrite app_nil_r.
    split; [reflexivity | apply Permutation_refl].
  - destruct td as [|[device|callback|] rest]; try discriminate Hts;
      injection Hts as <- <- <-; cbn [todo added existsb is_clear orb] in *.
    + rewrite H1, Ht, H2. split; [reflexivity|].
      exists [device]. split; [reflexivity|].
      cbn [app]. apply Permutation_middle.
    + rewrite H1, Ht, H2. split; [reflexivity|].
      exists []. rewrite app_nil_r.
      split; [reflexivity | apply Permutation_refl].
    + discriminate Ht.
Qed.

Lemma run_appends (sched : list nat) :
  forall s s' : system W,
    run sched s = Some s' ->
    existsb is_clear (calls (threads s)) = false ->
    exists new,
      Registry.devices_ (registry s') = Registry.devices_ (registry s) ++ new /\
      Permutation (new ++ pending (threads s')) (pending (threads s)).
Proof.
  induction sched as [|i sched IH]; intros s s' Hrun Hnc.
  - injection Hrun as <-. exists []. rewrite app_nil_r.
    split; [reflexivity | apply Permutation_refl].
  - cbn [run] in Hrun. destruct (step i s) as [s1|] eqn:Hstep; [|discriminate].
    destruct (step_appends i s s1 Hstep Hnc) as (Hnc1 & n1 & Hd1 & Hp1).
    destruct (IH s1 s' Hrun Hnc1) as (n2 & Hd2 & Hp2).
    exists (n1 ++ n2). split.
    + now rewrite Hd2, Hd1, app_assoc.
    + rewrite <- app_assoc.
      eapply Permutation_trans; [|exact Hp1].
      now apply Permutation_app_head.
Qed.

(** What one step does to the observer, when no [RegisterCallback] is
    left to run: the slot stays, and the callback in it is invoked on
    the device of the [AddDevice] the step ends, or not at all. *)
Lemma step_notifies (i : nat) (s s' : system W) :
  step i s = Some s' ->
  existsb is_register (calls (threads s)) = false ->
  existsb is_register (calls (threads s')) = false /\
  Registry.deviceCallback_ (registry s') = Registry.deviceCallback_ (registry s) /\
  exists seen,
    observer s' =
      fold_left (fun w d =>
                   Registry.notify_slot (Registry.deviceCallback_ (registry s)) d w)
                seen (observer s) /\
    Permutation (seen ++ unnotified (threads s')) (unnotified (threads s)).
Proof.
  unfold step. destruct (nth_error (threads s) i) as [th|] eqn:Hth;
    [|discriminate].
  destruct (replace_nth_split _ _ _ Hth) as (l1 & l2 & Hl & Hr).
  destruct (thread_step (registry s) (observer s) th)
    as [[[r' w'] th']|] eqn:Hts; [|discriminate].
  intros E. injection E as <-. cbn [threads registry observer].
  rewrite Hr, Hl.
  unfold calls, unnotified. rewrite !flat_map_app. cbn [flat_map].
  rewrite !existsb_app. intros Hnr.
  apply orb_false_iff in Hnr. destruct Hnr as [H1 Hnr].
  apply orb_false_iff in Hnr. destruct Hnr as [Ht H2].
  unfold thread_step in Hts. destruct th as [[d|] td]; cbn [midway todo] in *.
  - injection Hts as <- <- <-. cbn [todo midway]. rewrite H1, Ht, H2.
    split; [reflexivity|]. split; [reflexivity|].
    exists [d]. split; [reflexivity|].
    cbn [app]. apply Permutation_middle.
  - destruct td as [|[device|callback|] rest]; try discriminate Hts;
      try discriminate Ht;
      injection Hts as <- <- <-;
      cbn [todo midway added existsb is_register orb] in *;
      rewrite H1, Ht, H2;
      (split; [reflexivity|]); (split; [reflexivity|]);
      exists []; (split; [reflexivity | apply Permutation_refl]).
Qed.

Lemma run_notifies (sched : list nat) :
  forall s s' : system W,
    run sched s = Some s' ->
    existsb is_register (calls (threads s)) = false ->
    Registry.deviceCallback_ (registry s') = Registry.deviceCallback_ (registry s) /\
    exists seen,
      observer s' =
        fold_left (fun w d =>
                     Registry.notify_slot (Registry.deviceCallback_ (registry s)) d w)
                  seen (observer s) /\
      Permutation (seen ++ unnotified (threads s')) (unnotified (threads s)).
Proof.
  induction sched as [|i sched IH]; intros s s' Hrun Hnr.
  - injection Hrun as <-. split; [reflexivity|]. exists [].
    split; [reflexivity | apply Permutation_refl].
  - cbn [run] in Hrun. destruct (step i s) as [s1|] eqn:Hstep; [|discriminate].
    destruct (step_notifies i s s1 Hstep Hnr) as (Hnr1 & Hs1 & n1 & Hw1 & Hp1).
    destruct (IH s1 s' Hrun Hnr1) as (Hs2 & n2 & Hw2 & Hp2).
    split; [now rewrite Hs2|].
    exists (n1 ++ n2). split.
    + rewrite Hw2, Hw1, Hs1, fold_left_app. reflexivity.
    + rewrite <- app_assoc.
      eapply Permutation_trans; [|exact Hp1].
      now apply Permutation_app_head.
Qed.

(** When every thread has returned, nothing is pending or unreported. *)
Lemma finished_nothing_left (ths : list (thread W)) :
  forallb thread_done ths = true -> pending ths = [] /\ unnotified ths = [].
Proof.
  induction ths as [|[m td] ths IH]; [now split|].
  cbn [forallb]. intros H. apply andb_true_iff in H. destruct H as [Hd H].
  destruct (IH H) as [Hp Hu]. unfold pending, unnotified in *.
  cbn [flat_map midway todo]. rewrite Hp, Hu.
  destruct m, td; try discriminate Hd. now split.
Qed.

Lemma start_pending (programs : list (list (Registry.op W))) :
  pending (map (mkThread None) programs) = flat_map added programs /\
  unnotified (map (mkThread None) programs) = flat_map added programs /\
  calls (map (mkThread None) programs) = List.concat programs.
Proof.
  unfold pending, unnotified, calls.
  induction programs as [|ops programs (IH1 & IH2 & IH3)]; [now repeat split|].
  cbn [map flat_map List.concat midway todo]. now rewrite IH1, IH2, IH3.
Qed.

(** The two steps of a lone caller's [AddDevice] make up [Registry.AddDevice]. *)
Lemma lone_AddDevice (device : BleDevice) (r : Registry.t W) (w : W) :
  run [0; 0]%nat (start r w [[Registry.Add device]]) =
  Some (mkSystem (fst (Registry.AddDevice device (r, w)))
                 (snd (Registry.AddDevice device (r, w)))
                 [mkThread None []]).
Proof.
  unfold Registry.AddDevice. cbn [Registry.deviceCallback_].
  cbn. unfold notify, push_back. cbn [Registry.deviceCallback_].
  destruct (Registry.deviceCallback_ r); reflexivity.
Qed.

(** Any callers, any interleaving. *)
Lemma concurrent_adds (r0 : Registry.t W) (w0 : W)
      (programs : list (list (Registry.op W))) (sched : list nat)
      (s' : system W) :
  existsb is_clear (List.concat programs) = false ->
  existsb is_register (List.concat programs) = false ->
  run sched (start r0 w0 programs) = Some s' ->
  finished s' = true ->
  (exists new,
     Registry.GetDevices (registry s') = Registry.GetDevices r0 ++ new /\
     Permutation new (flat_map added programs)) /\
  Registry.GetDeviceCount (registry s') =
    (Registry.GetDeviceCount r0 + List.length (flat_map added programs))%nat /\
  Registry.deviceCallback_ (registry s') = Registry.deviceCallback_ r0 /\
  exists seen,
    Permutation seen (flat_map added programs) /\
    observer s' =
      fold_left (fun w d =>
                   Registry.notify_slot (Registry.deviceCallback_ r0) d w)
                seen w0.
Proof.
  intros Hnc Hnr Hrun Hfin.
  destruct (start_pending programs) as (Sp & Su & Sc).
  destruct (finished_nothing_left _ Hfin) as [Fp Fu].
  assert (existsb is_clear (calls (threads (start r0 w0 programs))) = false)
    as Hnc' by (cbn [start threads]; now rewrite Sc).
  destruct (run_appends sched _ _ Hrun Hnc') as (new & Hd & Hp).
  cbn [start threads registry] in Hd, Hp.
  rewrite Fp, app_nil_r, Sp in Hp.
  unfold Registry.GetDevices, Registry.GetDeviceCount.
  split; [now exists new|]. split.
  - rewrite Hd, length_app. f_equal. now apply Permutation_length.
  - assert (existsb is_register (calls (threads (start r0 w0 programs))) = false)
      as Hnr' by (cbn [start threads]; now rewrite Sc).
    destruct (run_notifies sched _ _ Hrun Hnr') as (Hs & seen & Hw & Hq).
    cbn [start threads registry observer] in Hs, Hw, Hq.
    rewrite Fu, app_nil_r, Su in Hq.
    split; [exact Hs|]. exists seen. split; [exact Hq | exact Hw].
Qed.

End ThreadsFacts.

(** C7, as the code has it.  After any calls, [AddDevice] appends the
    device whether or not its address is already present, so the count
    grows by one per call and N calls on a fresh scanner give N entries;
    it then invokes, synchronously and with that device, the callback
    most recently passed to [RegisterCallback] and no other (a later
    registration replaces an earlier one; with none registered nothing
    is invoked).  The same holds for callers on any threads: the push
    and the notification of a lone caller make up exactly that, and
    when any number of threads make their [AddDevice] calls in any
    interleaving the collection ends with its old entries followed by
    the added devices, each as often as it was added, so N calls add N
    to the count, and the callback registered beforehand has been
    invoked once per added device. *)
Theorem AddDevice_appends_and_notifies_latest
  (W : Type) (ops : list (Registry.op W)) (device : BleDevice) (w0 : W) :
  let rw := Registry.run ops (Registry.init, w0) in
  let rw' := Registry.AddDevice device rw in
  Registry.GetDevices (fst rw') = Registry.GetDevices (fst rw) ++ [device] /\
  Registry.GetDeviceCount (fst rw') = S (Registry.GetDeviceCount (fst rw)) /\
  snd rw' =
    Registry.notify_slot (Registry.last_registered ops None) device (snd rw) /\
  (forall ds : list BleDevice,
     Registry.GetDevices
       (fst (Registry.run (map Registry.Add ds) (Registry.init, w0))) = ds /\
     Registry.GetDeviceCount
       (fst (Registry.run (map Registry.Add ds) (Registry.init, w0))) =
     List.length ds) /\
  Threads.run [0; 0]%nat
    (Threads.start (fst rw) (snd rw) [[Registry.Add device]]) =
    Some (Threads.mkSystem (fst rw') (snd rw') [Threads.mkThread None []]) /\
  (forall (r0 : Registry.t W) (w1 : W)
          (programs : list (list (Registry.op W))) (sched : list nat)
          (s' : Threads.system W),
     existsb is_clear (List.concat programs) = false ->
     existsb is_register (List.concat programs) = false ->
     Threads.run sched (Threads.start r0 w1 programs) = Some s' ->
     Threads.finished s' = true ->
     (exists new,
        Registry.GetDevices (Threads.registry s') =
          Registry.GetDevices r0 ++ new /\
        Permutation new (flat_map added programs)) /\
     Registry.GetDeviceCount (Threads.registry s') =
       (Registry.GetDeviceCount r0
        + List.length (flat_map added programs))%nat /\
     Registry.deviceCallback_ (Threads.registry s') =
       Registry.deviceCallback_ r0 /\
     exists seen,
       Permutation seen (flat_map added programs) /\
       Threads.observer s' =
         fold_left (fun w d =>
                      Registry.notify_slot (Registry.deviceCallback_ r0) d w)
                   seen w1).
Proof.
  intros rw rw'. subst rw'. unfold Registry.GetDevices, Registry.GetDeviceCount.
  rewrite AddDevice_devices, AddDevice_observer.
  split; [reflexivity|]. split.
  - rewrite length_app. simpl. lia.
  - split; [|split; [|split]].
    + subst rw. rewrite slot_after_run. reflexivity.
    + intros ds. rewrite run_adds. simpl. split; reflexivity.
    + destruct rw as [r w]. cbn [fst snd]. rewrite lone_AddDevice.
      rewrite AddDevice_observer. reflexivity.
    + intros r0 w1 programs sched s' Hnc Hnr Hrun Hfin.
      exact (concurrent_adds r0 w1 programs sched s' Hnc Hnr Hrun Hfin).
Qed.

Lemma AddDevice_appends_and_notifies_latest_witness :
  exists s',
    Threads.run interleaved
      (Threads.start
         (Registry.RegisterCallback (Registry.journal 2) Registry.init) []
         two_callers) = Some s' /\
    Registry.GetDeviceCount (Threads.registry s') = 3%nat /\
    Threads.observer s' = [2%nat; 2%nat; 2%nat].
Proof.
  eexists. split; [reflexivity|].
  destruct (AddDevice_appends_and_notifies_latest (list nat) []
              Registry.some_device []) as (_ & _ & _ & _ & _ & Hany).
  destruct (Hany (Registry.RegisterCallback (Registry.journal 2) Registry.init)
                 [] two_callers interleaved _ eq_refl eq_refl eq_refl eq_refl)
    as (_ & Hcount & _).
  split; [exact Hcount | reflexivity].
Defined.

(** C7 as stated fails: with two callbacks registered, [AddDevice]
    reaches only the second, where a fan-out in registration order
    would reach the first and then the second. *)
Lemma AddDevice_reaches_only_latest_callback :
  let rw := Registry.run Registry.two_registrations (Registry.init, []) in
  snd (Registry.AddDevice Registry.some_device rw) = [2%nat] /\
  Registry.notify_all (Registry.registered Registry.two_registrations)
    Registry.some_device (snd rw) = [1%nat; 2%nat] /\
  ~ Registry.fans_out_to_all (list nat).
Proof.
  split; [reflexivity|]. split; [reflexivity|].
  intros H.
  specialize (H Registry.two_registrations Registry.some_device []).
  vm_compute in H. discriminate H.
Qed.

(** * Properties of the restart loop *)

Section LifecycleFacts.

Import Lifecycle.

Lemma adds_no_retry_same_log (s s' : t) :
  log s' = log s -> adds_no_retry s s'.
Proof. intros E. exists []. now rewrite app_nil_r. Qed.

Lemma adds_no_retry_refl (s : t) : adds_no_retry s s.
Proof. now apply adds_no_retry_same_log. Qed.

Local Ltac quiet_step :=
  split; [split; first [reflexivity | assumption]
         | now apply adds_no_retry_same_log].

Lemma adds_no_retry_trans (s1 s2 s3 : t) :
  adds_no_retry s1 s2 -> adds_no_retry s2 s3 -> adds_no_retry s1 s3.
Proof.
  intros (e1 & L1 & N1) (e2 & L2 & N2).
  exists (e1 ++ e2). split.
  - now rewrite L2, L1, app_assoc.
  - rewrite existsb_app, N1, N2. reflexivity.
Qed.

(** With the flag set, the check sends the handler out of the loop. *)
Lemma check_sees_flag (r : watcher_result) (s : t) :
  pc s = HCheck -> stopRequested_ s = true ->
  OnScannerStopped_step r s = Some (at_pc HIdle s).
Proof.
  intros Hpc Hflag. unfold OnScannerStopped_step. now rewrite Hpc, Hflag.
Qed.

(** No step other than a consumer's [Start()] leaves [stop_pending],
    and none of them issues a restart. *)
Lemma stop_pending_step (l : label) (s s' : t) :
  stop_pending s ->
  is_user_start l = false ->
  step l s = Some s' ->
  stop_pending s' /\ adds_no_retry s s'.
Proof.
  intros [Hflag Hpc] Hl Hstep.
  destruct s as [sr dr p lg]. cbn [stopRequested_ pc] in Hflag, Hpc.
  subst sr.
  destruct l as [|r|r|r|]; cbn in Hstep; try discriminate Hl.
  - (* the source reports "stopped" *)
    destruct p; try discriminate Hstep.
    injection Hstep as <-. quiet_step.
  - (* a handler step *)
    destruct p; try discriminate Hpc; try discriminate Hstep.
    + destruct dr; injection Hstep as <-; quiet_step.
    + injection Hstep as <-. quiet_step.
    + injection Hstep as <-. quiet_step.
    + destruct r; injection Hstep as <-; quiet_step.
  - (* Stop() *)
    injection Hstep as <-. split; [split; [reflexivity|exact Hpc]|].
    exists [EvStopFlag]. split; reflexivity.
  - (* the destructor *)
    injection Hstep as <-. unfold Destructor. cbn [destroyRequested_].
    destruct dr.
    + quiet_step.
    + split; [split; [reflexivity|exact Hpc]|].
      exists [EvStopFlag]. split; reflexivity.
Qed.

Lemma stop_pending_run (sched : list label) :
  forall s s' : t,
    stop_pending s ->
    no_user_start sched = true ->
    run sched s = Some s' ->
    stop_pending s' /\ adds_no_retry s s'.
Proof.
  induction sched as [|l sched IH]; intros s s' Hs Hn Hrun.
  - injection Hrun as <-. split; [assumption | apply adds_no_retry_refl].
  - cbn [run] in Hrun. cbn [no_user_start forallb] in Hn.
    apply andb_true_iff in Hn. destruct Hn as [Hl Hn].
    apply negb_true_iff in Hl.
    destruct (step l s) as [s1|] eqn:Hstep; [|discriminate].
    destruct (stop_pending_step l s s1 Hs Hl Hstep) as [Hs1 A1].
    destruct (IH s1 s' Hs1 Hn Hrun) as [Hs' A2].
    split; [assumption | eapply adds_no_retry_trans; eassumption].
Qed.

End LifecycleFacts.

(** X20. When [Stop()] sets the flag while the handler is anywhere but
    between reading the flag clear in the loop condition and clearing
    it in [Start()] (so also while it is idle, waiting, or inside the
    watcher call), and the consumer does not call [Start()] afterwards,
    then in every continuation the flag stays set and the restart loop
    issues no [Start()] after that [Stop()]. *)
Theorem no_restart_when_stop_is_outside_window
  (s0 s' : Lifecycle.t) (r : Lifecycle.watcher_result)
  (sched : list Lifecycle.label) :
  Lifecycle.outside_window (Lifecycle.pc s0) = true ->
  Lifecycle.no_user_start sched = true ->
  Lifecycle.run (Lifecycle.UserStop r :: sched) s0 = Some s' ->
  Lifecycle.stopRequested_ s' = true /\
  Lifecycle.outside_window (Lifecycle.pc s') = true /\
  exists evs,
    Lifecycle.log s' = Lifecycle.log s0 ++ Lifecycle.EvStopFlag :: evs /\
    existsb Lifecycle.is_retry evs = false.
Proof.
  intros Hpc Hn Hrun. cbn [Lifecycle.run Lifecycle.step] in Hrun.
  assert (Lifecycle.stop_pending (Lifecycle.Stop s0)) as Hs
      by (split; [reflexivity|exact Hpc]).
  destruct (stop_pending_run sched _ _ Hs Hn Hrun)
    as [[Hf Hp] (evs & Hl & Hno)].
  split; [exact Hf|]. split; [exact Hp|].
  exists evs. split; [|exact Hno].
  rewrite Hl. cbn [Lifecycle.Stop Lifecycle.log]. now rewrite <- app_assoc.
Qed.

Lemma no_restart_when_stop_is_outside_window_witness :
  exists s',
    Lifecycle.run (Lifecycle.UserStop Lifecycle.Returns :: watcher_then_rounds)
      loop_in_watcher = Some s' /\
    Lifecycle.stopRequested_ s' = true /\
    Lifecycle.log s' = [Lifecycle.EvRetryStart; Lifecycle.EvStopFlag].
Proof.
  eexists. split; [reflexivity|].
  destruct (no_restart_when_stop_is_outside_window loop_in_watcher _
              Lifecycle.Returns watcher_then_rounds eq_refl eq_refl eq_refl)
    as (Hf & _ & _).
  split; [exact Hf | reflexivity].
Defined.

(** C6.  The code breaks the claim.  The loop tests [stopRequested_]
    before each restart and [Stop()] sets it, but the test and the call
    are not one step and [Start()] begins with [stopRequested_ = false].
    In the first schedule [Stop()] sets the flag after the loop has read
    it clear and before the loop calls [Start()]; in the second [Stop()]
    sets it while the loop is inside [Start()], which clears it again,
    so that after a failed start the next round calls [Start()] too.
    Neither schedule has a consumer [Start()]; both logs show a restart
    after the stop, and when the first schedule is followed to the end
    of [Start()] the watcher is started with the stop flag clear. *)
Lemma restart_issued_after_stop :
  Lifecycle.no_user_start Lifecycle.stop_between_check_and_call = true /\
  option_map Lifecycle.log
    (Lifecycle.run Lifecycle.stop_between_check_and_call Lifecycle.init) =
    Some [Lifecycle.EvStopFlag; Lifecycle.EvRetryStart] /\
  Lifecycle.run Lifecycle.stop_lost Lifecycle.init =
    Some (Lifecycle.mk false false Lifecycle.HIdle
            [Lifecycle.EvStopFlag; Lifecycle.EvRetryStart]) /\
  Lifecycle.no_user_start Lifecycle.stop_during_start = true /\
  option_map Lifecycle.log
    (Lifecycle.run Lifecycle.stop_during_start Lifecycle.init) =
    Some [Lifecycle.EvRetryStart; Lifecycle.EvStopFlag; Lifecycle.EvRetryStart] /\
  ~ Lifecycle.never_restarts_after_stop.
Proof.
  repeat (split; [reflexivity|]).
  intros H.
  specialize (H Lifecycle.stop_between_check_and_call _ eq_refl eq_refl).
  discriminate H.
Qed.

(** * Further properties of the decoder and of the telemetry record *)

Section DecoderUse.

Import AppleContinuityParser.

(** [Parse] always returns. *)
Lemma Parse_total (data : list byte) : exists r, Parse data = Ok r.
Proof.
  destruct (Nat.lt_ge_cases (List.length data) 8) as [Hs|Hl].
  - exists None. now apply Parse_short.
  - destruct (vector_ge8 data Hl)
      as (b0 & b1 & b2 & b3 & b4 & b5 & b6 & b7 & rest & ->).
    rewrite Parse_cons8.
    destruct (u8 b0 =? PROXIMITY_PAIRING_TYPE); eexists; reflexivity.
Qed.

(** X1. [CanParse] and [Parse] agree on every byte sequence and
    neither faults: [CanParse] answers true exactly when [Parse] returns
    telemetry, it answers false exactly when [Parse] returns no-result,
    and one of the two is always the case. *)
Theorem CanParse_true_iff_Parse_succeeds (data : list byte) :
  (CanParse data = Ok true <-> exists t, Parse data = Ok (Some t)) /\
  (CanParse data = Ok false <-> Parse data = Ok None) /\
  ((CanParse data = Ok true /\ exists t, Parse data = Ok (Some t)) \/
   (CanParse data = Ok false /\ Parse data = Ok None)).
Proof.
  unfold CanParse. rewrite size_reaches_min.
  destruct (Nat.leb_spec 8 (List.length data)) as [Hl|Hs].
  - destruct (vector_ge8 data Hl)
      as (b0 & b1 & b2 & b3 & b4 & b5 & b6 & b7 & rest & ->).
    rewrite Parse_cons8. cbn [at_ nth_error bind].
    destruct (u8 b0 =? PROXIMITY_PAIRING_TYPE).
    + split; [|split].
      * split; [intros _; eexists; reflexivity | reflexivity].
      * split; discriminate.
      * left. split; [reflexivity | eexists; reflexivity].
    + split; [|split].
      * split; [discriminate | intros [t H]; discriminate].
      * split; reflexivity.
      * right. split; reflexivity.
  - rewrite (Parse_short data Hs). split; [|split].
    + split; [discriminate | intros [t H]; discriminate].
    + split; reflexivity.
    + right. split; reflexivity.
Qed.

(** X2. The three charging flags of a decoded payload are bits 2
    (case), 1 (left) and 0 (right) of byte 5, the lid flag is bit 2 of
    byte 7, and [IsAnyCharging] holds exactly when one of the three low
    bits of byte 5 is set. *)
Theorem charging_flags_from_status_byte (data : list byte) (t : AirPodsData) :
  Parse data = Ok (Some t) ->
  caseCharging (chargingState t) = Z.testbit (byte_at data 5) 2 /\
  leftCharging (chargingState t) = Z.testbit (byte_at data 5) 1 /\
  rightCharging (chargingState t) = Z.testbit (byte_at data 5) 0 /\
  lidOpen (deviceState t) = Z.testbit (byte_at data 7) 2 /\
  IsAnyCharging t = negb (Z.land (byte_at data 5) 0x07 =? 0).
Proof.
  intros HP.
  destruct (Parse_Some_inv data t HP)
    as (b1 & b2 & b3 & b4 & b5 & b6 & b7 & rest & -> & ->).
  unfold byte_at, IsAnyCharging, telemetry, ExtractChargingState,
    ExtractDeviceState.
  cbn [nth chargingState deviceState caseCharging leftCharging rightCharging
       lidOpen].
  destruct (flag_bits b5) as (H2 & H1 & H0).
  destruct (flag_bits b7) as (L2 & _ & _).
  rewrite H2, H1, H0, L2. repeat split.
  clear. destruct b5; reflexivity.
Qed.

Lemma charging_flags_from_status_byte_witness :
  exists t,
    Parse payload_high_nibbles = Ok (Some t) /\
    caseCharging (chargingState t) = true /\
    leftCharging (chargingState t) = false /\
    IsAnyCharging t = true.
Proof.
  eexists. split; [reflexivity|].
  destruct (charging_flags_from_status_byte payload_high_nibbles _ eq_refl)
    as (Hc & Hl & _ & _ & Ha).
  rewrite Hc, Hl, Ha. repeat split.
Defined.

(** X3. On a decoded payload [IsAnyInEar] is the negation of
    [bothInCase]. *)
Theorem IsAnyInEar_negates_bothInCase (data : list byte) (t : AirPodsData) :
  Parse data = Ok (Some t) ->
  IsAnyInEar t = negb (bothInCase (deviceState t)).
Proof.
  intros HP.
  destruct (Parse_Some_inv data t HP)
    as (b1 & b2 & b3 & b4 & b5 & b6 & b7 & rest & _ & ->).
  unfold IsAnyInEar, telemetry, ExtractDeviceState.
  cbn [deviceState leftInEar rightInEar bothInCase].
  now rewrite <- negb_orb, negb_involutive.
Qed.

Lemma IsAnyInEar_negates_bothInCase_witness :
  exists t,
    Parse payload_high_nibbles = Ok (Some t) /\
    IsAnyInEar t = true /\ bothInCase (deviceState t) = false.
Proof.
  eexists. split; [reflexivity|].
  pose proof (IsAnyInEar_negates_bothInCase payload_high_nibbles _ eq_refl) as H.
  split; [rewrite H|]; reflexivity.
Defined.

(** X4. [GetLowestBatteryLevel] is below each of the three levels and
    equal to one of them; on a decoded payload it is ten times a nibble,
    so a multiple of 10 between 0 and 150. *)
Theorem GetLowestBatteryLevel_is_least (data : list byte) (t : AirPodsData) :
  Parse data = Ok (Some t) ->
  let m := GetLowestBatteryLevel t in
  let bl := batteryLevels t in
  (m <= left bl /\ m <= right bl /\ m <= case_ bl) /\
  (m = left bl \/ m = right bl \/ m = case_ bl) /\
  exists n, 0 <= n <= 15 /\ m = n * 10.
Proof.
  intros HP.
  destruct (Parse_Some_inv data t HP)
    as (b1 & b2 & b3 & b4 & b5 & b6 & b7 & rest & _ & ->).
  unfold GetLowestBatteryLevel, telemetry, ExtractBatteryLevels.
  cbn [batteryLevels left right case_ fold_left].
  pose proof (u8_range b5) as H5. pose proof (u8_range b6) as H6.
  rewrite (high_nibble_bits _ H5), (high_nibble_bits _ H6), low_nibble_bits.
  unfold high_nibble, low_nibble.
  pose proof (Z.mod_pos_bound (u8 b6) 16 ltac:(lia)) as Hr.
  assert (0 <= u8 b5 / 16 <= 15) as Hc
      by (split; [apply Z.div_pos; lia | apply Z.lt_succ_r, Z.div_lt_upper_bound; lia]).
  assert (0 <= u8 b6 / 16 <= 15) as Hl
      by (split; [apply Z.div_pos; lia | apply Z.lt_succ_r, Z.div_lt_upper_bound; lia]).
  set (c := u8 b5 / 16) in *. set (l := u8 b6 / 16) in *.
  set (r := u8 b6 mod 16) in *.
  split; [lia|]. split; [lia|].
  exists (Z.min (Z.min l r) c). lia.
Qed.

Lemma GetLowestBatteryLevel_is_least_witness :
  exists t,
    Parse payload_high_nibbles = Ok (Some t) /\
    GetLowestBatteryLevel t <= right (batteryLevels t).
Proof.
  eexists. split; [reflexivity|].
  destruct (GetLowestBatteryLevel_is_least payload_high_nibbles _ eq_refl)
    as ((_ & Hr & _) & _).
  exact Hr.
Defined.

(** X5. The model name of a decoded payload is the table entry of its
    identifier 256 * byte 4 + byte 3; it is "Unknown AirPods" exactly
    when the identifier is none of the four known ones. *)
Theorem model_name_from_identifier (data : list byte) (t : AirPodsData) :
  Parse data = Ok (Some t) ->
  model t = ParseModelName (model_id_of data) /\
  (model t = "Unknown AirPods"%string <->
   ~ In (model_id_of data) known_model_ids).
Proof.
  intros HP.
  destruct (Parse_Some_inv data t HP)
    as (b1 & b2 & b3 & b4 & b5 & b6 & b7 & rest & -> & ->).
  unfold model_id_of, byte_at, telemetry. cbn [nth model].
  rewrite (model_id_value _ _ (u8_range b4) (u8_range b3)).
  split; [reflexivity|].
  unfold ParseModelName, known_model_ids.
  set (id := 256 * u8 b4 + u8 b3).
  destruct (Z.eqb_spec id 0x2014) as [->|N1];
    [split; [discriminate | intros H; exfalso; apply H; simpl; tauto]|].
  destruct (Z.eqb_spec id 0x200E) as [->|N2];
    [split; [discriminate | intros H; exfalso; apply H; simpl; tauto]|].
  destruct (Z.eqb_spec id 0x2013) as [->|N3];
    [split; [discriminate | intros H; exfalso; apply H; simpl; tauto]|].
  destruct (Z.eqb_spec id 0x200F) as [->|N4];
    [split; [discriminate | intros H; exfalso; apply H; simpl; tauto]|].
  split; [|reflexivity].
  intros _ [H|[H|[H|[H|[]]]]]; congruence.
Qed.

Lemma model_name_from_identifier_witness :
  exists t,
    Parse payload_high_nibbles = Ok (Some t) /\
    model t = "AirPods Pro"%string.
Proof.
  eexists. split; [reflexivity|].
  destruct (model_name_from_identifier payload_high_nibbles _ eq_refl)
    as [Hm _].
  rewrite Hm. reflexivity.
Defined.

(** X6. The identifier text of a decoded payload is "0x" followed by
    exactly four characters: six characters in all. *)
Theorem modelId_text_has_six_characters (data : list byte) (t : AirPodsData) :
  Parse data = Ok (Some t) ->
  modelId t = FormatModelId (model_id_of data) /\
  String.length (modelId t) = 6%nat /\
  prefix "0x" (modelId t) = true.
Proof.
  intros HP.
  destruct (Parse_Some_inv data t HP)
    as (b1 & b2 & b3 & b4 & b5 & b6 & b7 & rest & -> & ->).
  unfold model_id_of, byte_at, telemetry. cbn [nth modelId].
  rewrite (model_id_value _ _ (u8_range b4) (u8_range b3)).
  pose proof (u8_range b4) as H4. pose proof (u8_range b3) as H3.
  split; [reflexivity|]. unfold FormatModelId. split.
  - rewrite string_length_app, pad_left_length_u16 by lia. reflexivity.
  - generalize (pad_left 4 "0"%char (hex_upper (256 * u8 b4 + u8 b3))).
    intros s. apply prefix_correct. destruct s; reflexivity.
Qed.

Lemma modelId_text_has_six_characters_witness :
  exists t,
    Parse payload_high_nibbles = Ok (Some t) /\
    modelId t = "0x200E"%string.
Proof.
  eexists. split; [reflexivity|].
  destruct (modelId_text_has_six_characters payload_high_nibbles _ eq_refl)
    as [Hm _].
  rewrite Hm. reflexivity.
Defined.

End DecoderUse.

(** * Properties of the device record's texts *)

Section DeviceText.

Lemma string_app_assoc (s1 s2 s3 : string) :
  ((s1 ++ s2) ++ s3 = s1 ++ (s2 ++ s3))%string.
Proof. induction s1 as [|c s1 IH]; simpl; [reflexivity | now rewrite IH]. Qed.

Lemma string_app_nil_r (s : string) : (s ++ EmptyString = s)%string.
Proof. induction s as [|c s IH]; simpl; [reflexivity | now rewrite IH]. Qed.

Lemma u8_to_uint8 (z : Z) : u8 (Text.to_uint8 z) = z mod 256.
Proof.
  unfold u8, Text.to_uint8.
  pose proof (Z.mod_pos_bound z 256 ltac:(lia)) as Hm.
  destruct (Byte.of_N (Z.to_N (z mod 256))) as [b|] eqn:E.
  - apply Byte.to_of_N in E. rewrite E. apply Z2N.id. lia.
  - apply Byte.of_N_None_iff in E. lia.
Qed.

(** Every number from 0 to 255 is the value of a byte. *)
Lemma u8_surj (v : Z) : 0 <= v < 256 -> exists b, u8 b = v.
Proof.
  intros Hv. exists (Text.to_uint8 v).
  rewrite u8_to_uint8. now apply Z.mod_small.
Qed.

(** A byte prints as two lowercase digits which [strtol] reads back. *)
Lemma hex_pair_lower (b : byte) :
  exists c1 c2,
    pad_left 2 "0"%char (Text.hex_lower (u8 b)) = String c1 (String c2 EmptyString) /\
    Text.to_uint8 (Text.strtol16 (String c1 (String c2 EmptyString))) = b.
Proof.
  destruct b; do 2 eexists;
    (split; [vm_compute; reflexivity | vm_compute; reflexivity]).
Qed.

(** A byte prints as two uppercase digits whose values are its nibbles. *)
Lemma hex_pair_upper (b : byte) :
  exists c1 c2,
    pad_left 2 "0"%char (hex_upper (u8 b)) = String c1 (String c2 EmptyString) /\
    Text.hex_value c1 = Some (u8 b / 16) /\
    Text.hex_value c2 = Some (u8 b mod 16).
Proof.
  destruct b; do 2 eexists;
    (split; [vm_compute; reflexivity
            | split; [vm_compute; reflexivity | vm_compute; reflexivity]]).
Qed.

Lemma put_hex_bytes_from (data : list byte) :
  forall ss : string,
    fold_left put_hex_byte data ss =
    (ss ++ fold_left put_hex_byte data EmptyString)%string.
Proof.
  induction data as [|b data IH]; intros ss; cbn [fold_left].
  - now rewrite string_app_nil_r.
  - rewrite IH. rewrite (IH (put_hex_byte EmptyString b)).
    unfold put_hex_byte. now rewrite string_app_assoc.
Qed.

Lemma put_hex_bytes_cons (b : byte) (data : list byte) :
  fold_left put_hex_byte (b :: data) EmptyString =
  (pad_left 2 "0"%char (Text.hex_lower (u8 b))
   ++ fold_left put_hex_byte data EmptyString)%string.
Proof. cbn [fold_left]. now rewrite put_hex_bytes_from. Qed.

Lemma GetManufacturerDataHex_fold (d : BleDevice) :
  GetManufacturerDataHex d = fold_left put_hex_byte (manufacturerData d) EmptyString.
Proof.
  unfold GetManufacturerDataHex. now destruct (manufacturerData d).
Qed.

Lemma hexdump_length (data : list byte) :
  String.length (fold_left put_hex_byte data EmptyString) = (2 * List.length data)%nat.
Proof.
  induction data as [|b data IH]; [reflexivity|].
  rewrite put_hex_bytes_cons, string_length_app, IH.
  destruct (hex_pair_lower b) as (c1 & c2 & -> & _).
  cbn [String.length List.length]. lia.
Qed.

Lemma hexdump_read_back (data : list byte) :
  hex_to_bytes (fold_left put_hex_byte data EmptyString) = data.
Proof.
  induction data as [|b data IH]; [reflexivity|].
  rewrite put_hex_bytes_cons.
  destruct (hex_pair_lower b) as (c1 & c2 & -> & Hb).
  cbn [append hex_to_bytes]. now rewrite Hb, IH.
Qed.

(** X7. [GetManufacturerDataHex] writes two characters per byte (none
    for an empty payload), the v5 [to_hex_string] writes the same text,
    and [hex_to_bytes] of the test program reads that text back into
    the bytes it came from. *)
Theorem GetManufacturerDataHex_round_trip (d : BleDevice) :
  String.length (GetManufacturerDataHex d) =
    (2 * List.length (manufacturerData d))%nat /\
  to_hex_string (manufacturerData d) = GetManufacturerDataHex d /\
  hex_to_bytes (GetManufacturerDataHex d) = manufacturerData d.
Proof.
  rewrite GetManufacturerDataHex_fold.
  split; [apply hexdump_length|]. split; [|apply hexdump_read_back].
  unfold to_hex_string. now destruct (manufacturerData d).
Qed.

End DeviceText.

Section DeviceAddress.

Local Abbreviation piece a i := (Z.land (Z.shiftr a (i * 8)) 0xFF).
Local Abbreviation text v := (pad_left 2 "0"%char (hex_upper v)).

Lemma piece_value (a i : Z) :
  0 <= i -> piece a i = (a / 2 ^ (i * 8)) mod 256.
Proof.
  intros Hi. change 0xFF with (Z.ones 8).
  rewrite Z.land_ones by lia. rewrite Z.shiftr_div_pow2 by lia. reflexivity.
Qed.

Lemma piece_range (a i : Z) : 0 <= i -> 0 <= piece a i < 256.
Proof.
  intros Hi. rewrite piece_value by assumption.
  apply Z.mod_pos_bound. lia.
Qed.

(** A value from 0 to 255 prints as two characters that determine it. *)
Lemma text_two_chars (v : Z) :
  0 <= v < 256 ->
  exists c1 c2,
    text v = String c1 (String c2 EmptyString) /\
    Text.hex_value c1 = Some (v / 16) /\
    Text.hex_value c2 = Some (v mod 16).
Proof.
  intros Hv. destruct (u8_surj v Hv) as [b <-]. apply hex_pair_upper.
Qed.

Lemma text_inj (v w : Z) :
  0 <= v < 256 -> 0 <= w < 256 -> text v = text w -> v = w.
Proof.
  intros Hv Hw.
  destruct (text_two_chars v Hv) as (c1 & c2 & -> & V1 & V2).
  destruct (text_two_chars w Hw) as (e1 & e2 & -> & W1 & W2).
  intros E. injection E as -> ->.
  rewrite V1 in W1. rewrite V2 in W2.
  injection W1 as Q. injection W2 as R.
  rewrite (Z.div_mod v 16), (Z.div_mod w 16) by lia. congruence.
Qed.

(** A two-character text in front of a tail can be split off. *)
Lemma text_app_inj (v w : Z) (r s : string) :
  0 <= v < 256 -> 0 <= w < 256 ->
  (text v ++ r = text w ++ s)%string ->
  text v = text w /\ r = s.
Proof.
  intros Hv Hw.
  destruct (text_two_chars v Hv) as (c1 & c2 & -> & _ & _).
  destruct (text_two_chars w Hw) as (e1 & e2 & -> & _ & _).
  cbn [append]. intros E. injection E as -> -> ->. split; reflexivity.
Qed.

Lemma six_texts_inj (v5 v4 v3 v2 v1 v0 w5 w4 w3 w2 w1 w0 : Z) :
  0 <= v5 < 256 -> 0 <= v4 < 256 -> 0 <= v3 < 256 ->
  0 <= v2 < 256 -> 0 <= v1 < 256 -> 0 <= v0 < 256 ->
  0 <= w5 < 256 -> 0 <= w4 < 256 -> 0 <= w3 < 256 ->
  0 <= w2 < 256 -> 0 <= w1 < 256 -> 0 <= w0 < 256 ->
  (text v5 ++ ":" ++ text v4 ++ ":" ++ text v3 ++ ":" ++ text v2 ++ ":"
   ++ text v1 ++ ":" ++ text v0
   = text w5 ++ ":" ++ text w4 ++ ":" ++ text w3 ++ ":" ++ text w2 ++ ":"
   ++ text w1 ++ ":" ++ text w0)%string ->
  v5 = w5 /\ v4 = w4 /\ v3 = w3 /\ v2 = w2 /\ v1 = w1 /\ v0 = w0.
Proof.
  intros V5 V4 V3 V2 V1 V0 W5 W4 W3 W2 W1 W0 E.
  apply (text_app_inj v5 w5 _ _ V5 W5) in E. destruct E as [E5 E].
  injection E as E.
  apply (text_app_inj v4 w4 _ _ V4 W4) in E. destruct E as [E4 E].
  injection E as E.
  apply (text_app_inj v3 w3 _ _ V3 W3) in E. destruct E as [E3 E].
  injection E as E.
  apply (text_app_inj v2 w2 _ _ V2 W2) in E. destruct E as [E2 E].
  injection E as E.
  apply (text_app_inj v1 w1 _ _ V1 W1) in E. destruct E as [E1 E].
  injection E as E0.
  repeat split; apply text_inj; assumption.
Qed.

Lemma GetFormattedAddress_pieces (d : BleDevice) :
  let a := address d in
  GetFormattedAddress d =
  (text (piece a 5) ++ ":" ++ text (piece a 4) ++ ":" ++ text (piece a 3)
   ++ ":" ++ text (piece a 2) ++ ":" ++ text (piece a 1) ++ ":"
   ++ text (piece a 0))%string.
Proof.
  intros a. unfold GetFormattedAddress. fold a.
  cbn [GetFormattedAddress_loop].
  change (Z.of_nat 5) with 5. change (Z.of_nat 4) with 4.
  change (Z.of_nat 3) with 3. change (Z.of_nat 2) with 2.
  change (Z.of_nat 1) with 1. change (Z.of_nat 0) with 0.
  change (5 <? 5) with false. change (4 <? 5) with true.
  change (3 <? 5) with true. change (2 <? 5) with true.
  change (1 <? 5) with true. change (0 <? 5) with true.
  cbv iota.
  rewrite !string_app_assoc. reflexivity.
Qed.


Lemma piece_low48 (a i : Z) :
  0 <= i <= 5 -> piece a i = piece (a mod 2 ^ 48) i.
Proof.
  intros Hi. apply Z.bits_inj'. intros n Hn.
  rewrite !Z.land_spec, !Z.shiftr_spec by assumption.
  destruct (Z_lt_le_dec n 8) as [Hlt|Hge].
  - rewrite Z.mod_pow2_bits_low by lia. reflexivity.
  - replace (Z.testbit 0xFF n) with false; [now rewrite !andb_false_r|].
    symmetry. apply Z.bits_above_log2; [lia|]. simpl. lia.
Qed.

(** A 48-bit address is the sum of its six pieces. *)
Lemma address_from_pieces (a : Z) :
  0 <= a < 2 ^ 48 ->
  a = piece a 0 + 256 * (piece a 1 + 256 * (piece a 2 + 256 * (piece a 3
      + 256 * (piece a 4 + 256 * piece a 5)))).
Proof.
  intros Ha. rewrite !piece_value by lia.
  change (2 ^ (0 * 8)) with 1. change (2 ^ (1 * 8)) with 256.
  change (2 ^ (2 * 8)) with 65536. change (2 ^ (3 * 8)) with 16777216.
  change (2 ^ (4 * 8)) with 4294967296.
  change (2 ^ (5 * 8)) with 1099511627776.
  change (2 ^ 48) with 281474976710656 in Ha.
  Z.div_mod_to_equations. lia.
Qed.

Lemma formatted_address_inj (d1 d2 : BleDevice) :
  0 <= address d1 < 2 ^ 48 ->
  0 <= address d2 < 2 ^ 48 ->
  GetFormattedAddress d1 = GetFormattedAddress d2 ->
  address d1 = address d2.
Proof.
  intros H1 H2. rewrite !GetFormattedAddress_pieces. cbv zeta. intros E.
  apply six_texts_inj in E; try (apply piece_range; lia).
  destruct E as (E5 & E4 & E3 & E2 & E1 & E0).
  rewrite (address_from_pieces _ H1), (address_from_pieces _ H2).
  congruence.
Qed.

End DeviceAddress.

(** X8. [GetFormattedAddress] always gives 17 characters, and it shows
    only the low 48 bits of the address: two devices whose addresses
    agree modulo 2^48 get the same text. *)
Theorem GetFormattedAddress_shows_low_48_bits (d : BleDevice) :
  String.length (GetFormattedAddress d) = 17%nat /\
  forall d' : BleDevice,
    address d mod 2 ^ 48 = address d' mod 2 ^ 48 ->
    GetFormattedAddress d = GetFormattedAddress d'.
Proof.
  split.
  - rewrite GetFormattedAddress_pieces. cbv zeta.
    repeat match goal with
           | |- context [pad_left 2 "0"%char (hex_upper (Z.land (Z.shiftr ?a (?i * 8)) 0xFF))] =>
               let c1 := fresh "c" in
               let c2 := fresh "c" in
               destruct (text_two_chars _ (piece_range a i ltac:(lia)))
                 as (c1 & c2 & -> & _ & _)
           end.
    reflexivity.
  - intros d' E. rewrite !GetFormattedAddress_pieces. cbv zeta.
    rewrite (piece_low48 (address d) 5), (piece_low48 (address d) 4),
      (piece_low48 (address d) 3), (piece_low48 (address d) 2),
      (piece_low48 (address d) 1), (piece_low48 (address d) 0) by lia.
    rewrite (piece_low48 (address d') 5), (piece_low48 (address d') 4),
      (piece_low48 (address d') 3), (piece_low48 (address d') 2),
      (piece_low48 (address d') 1), (piece_low48 (address d') 0) by lia.
    now rewrite E.
Qed.

(** X9. For devices with 48-bit addresses, [operator==] holds exactly
    when the formatted addresses are equal, and [operator!=] exactly
    when they differ; signal strength, payload, timestamp and
    telemetry play no part. *)
Theorem formatted_address_decides_equality (d1 d2 : BleDevice) :
  0 <= address d1 < 2 ^ 48 ->
  0 <= address d2 < 2 ^ 48 ->
  (BleDevice_eq d1 d2 = true <->
   GetFormattedAddress d1 = GetFormattedAddress d2) /\
  (BleDevice_ne d1 d2 = true <->
   GetFormattedAddress d1 <> GetFormattedAddress d2).
Proof.
  intros H1 H2.
  pose proof (formatted_address_inj d1 d2 H1 H2) as Hinj.
  unfold BleDevice_ne, BleDevice_eq. rewrite negb_true_iff.
  destruct (Z.eqb_spec (address d1) (address d2)) as [Heq|Hne].
  - assert (GetFormattedAddress d1 = GetFormattedAddress d2) as Ht
        by (unfold GetFormattedAddress; now rewrite Heq).
    split; split.
    + intros _. exact Ht.
    + reflexivity.
    + discriminate.
    + intros H. now elim H.
  - split; split.
    + discriminate.
    + intros H. elim Hne. now apply Hinj.
    + intros _ H. elim Hne. now apply Hinj.
    + reflexivity.
Qed.

Lemma formatted_address_decides_equality_witness :
  BleDevice_eq Registry.some_device some_device_again = true /\
  GetFormattedAddress Registry.some_device =
  GetFormattedAddress some_device_again.
Proof.
  split; [reflexivity|].
  apply (formatted_address_decides_equality Registry.some_device
           some_device_again); [cbn; lia | cbn; lia | reflexivity].
Defined.

(** * Properties of the path from an advertisement to the collection *)

Section Conversions.

Lemma hex_lower_aux_length_le (fuel : nat) :
  forall (n : Z) (acc : string),
    (String.length (Text.hex_lower_aux fuel n acc)
     <= fuel + String.length acc)%nat.
Proof.
  induction fuel as [|fuel IH]; intros n acc; cbn [Text.hex_lower_aux].
  - lia.
  - destruct (n / 16 =? 0).
    + cbn [String.length]. lia.
    + specialize (IH (n / 16) (String (Text.hex_digit_lower (n mod 16)) acc)).
      cbn [String.length] in IH. lia.
Qed.

(** A number below 16^(k+1) prints in at most k+1 digits. *)
Lemma hex_lower_aux_length_digits (k : nat) :
  forall (fuel : nat) (n : Z) (acc : string),
    0 <= n < 16 ^ Z.of_nat (S k) ->
    (S k <= fuel)%nat ->
    (String.length (Text.hex_lower_aux fuel n acc)
     <= S k + String.length acc)%nat.
Proof.
  induction k as [|k IH]; intros fuel n acc Hn Hf;
    (destruct fuel as [|fuel]; [lia|]); cbn [Text.hex_lower_aux].
  - change (16 ^ Z.of_nat 1) with 16 in Hn.
    rewrite (Z.div_small n 16) by lia. cbn [Z.eqb String.length]. lia.
  - destruct (n / 16 =? 0).
    + cbn [String.length]. lia.
    + assert (0 <= n / 16 < 16 ^ Z.of_nat (S k)) as Hq.
      { rewrite Nat2Z.inj_succ, Z.pow_succ_r in Hn by lia.
        split; [apply Z.div_pos; lia|].
        apply Z.div_lt_upper_bound; lia. }
      specialize (IH fuel (n / 16)
                    (String (Text.hex_digit_lower (n mod 16)) acc) Hq
                    ltac:(lia)).
      cbn [String.length] in IH. lia.
Qed.

Lemma pad_left_length (w : nat) (c : ascii) (s : string) :
  String.length (pad_left w c s) = Nat.max w (String.length s).
Proof.
  unfold pad_left. rewrite string_length_app, repeat_char_length. lia.
Qed.

(** The v5 address text always fits its buffer, and is the text the
    modular scanner builds. *)
Lemma sprintf_012llx_fits (v : Z) :
  V5Watcher.sprintf_012llx 32 v = Ok (pad_left 12 "0"%char (Text.hex_lower v)).
Proof.
  unfold V5Watcher.sprintf_012llx. cbv zeta.
  rewrite pad_left_length.
  pose proof (hex_lower_aux_length_le 16 v EmptyString) as H.
  fold (Text.hex_lower v) in H. cbn [String.length] in H.
  destruct (Nat.ltb_spec (Nat.max 12 (String.length (Text.hex_lower v))) 32);
    [reflexivity | lia].
Qed.

Lemma conversion_in_range (ticks : Z) :
  Scanner.convertible ticks ->
  let seconds := Z.quot ticks Scanner.TICKS_PER_SECOND - Scanner.EPOCH_DIFFERENCE in
  let nanoseconds := Z.rem ticks Scanner.TICKS_PER_SECOND * 100 in
  - 2 ^ 63 <= seconds * 1000000000 < 2 ^ 63 /\
  - 2 ^ 63 <= seconds * 1000000000 + nanoseconds < 2 ^ 63 /\
  seconds * 1000000000 + nanoseconds = 100 * (ticks - 116444736000000000).
Proof.
  unfold Scanner.convertible, Scanner.TICKS_PER_SECOND, Scanner.EPOCH_DIFFERENCE.
  intros H. cbv zeta.
  rewrite Z.quot_div_nonneg, Z.rem_mod_nonneg by lia.
  change (2 ^ 63) with 9223372036854775808.
  pose proof (Z.div_mod ticks 10000000 ltac:(lia)) as E.
  pose proof (Z.mod_pos_bound ticks 10000000 ltac:(lia)) as B.
  set (q := ticks / 10000000) in *. set (r := ticks mod 10000000) in *.
  lia.
Qed.

End Conversions.

(** X10. For a WinRT timestamp between the years 1677 and 2262
    [ConvertWinRtTime] computes exactly 100 * (ticks - 116444736000000000)
    nanoseconds, the time since 1970, and returns it in units of the
    clock's period; with the 100 ns period of the platform the result is
    ticks - 116444736000000000. *)
Theorem ConvertWinRtTime_shifts_epoch (clock_period_ns ticks : Z) :
  Scanner.convertible ticks ->
  Scanner.ConvertWinRtTime clock_period_ns ticks =
    Ok (Z.quot (100 * (ticks - 116444736000000000)) clock_period_ns) /\
  Scanner.ConvertWinRtTime 100 ticks = Ok (ticks - 116444736000000000).
Proof.
  intros H.
  destruct (conversion_in_range ticks H) as ((L1 & U1) & (L2 & U2) & E).
  assert (forall p, Scanner.ConvertWinRtTime p ticks =
                    Ok (Z.quot (100 * (ticks - 116444736000000000)) p)) as Hc.
  { intros p. unfold Scanner.ConvertWinRtTime, Scanner.int64_checked.
    cbv zeta.
    apply Z.leb_le in L1, L2. apply Z.ltb_lt in U1, U2.
    rewrite L1, U1. cbn [andb bind]. rewrite L2, U2. cbn [andb bind].
    now rewrite E. }
  split; [apply Hc|]. rewrite Hc. f_equal.
  rewrite Z.mul_comm. apply Z.quot_mul. lia.
Qed.

Lemma ConvertWinRtTime_shifts_epoch_witness :
  Scanner.ConvertWinRtTime 100 133500000000000000 = Ok 17055264000000000.
Proof.
  apply (ConvertWinRtTime_shifts_epoch 100 133500000000000000).
  unfold Scanner.convertible. lia.
Defined.

(** X11. For a timestamp before the year 1677 (tick 0, the year 1601,
    included) the product seconds * 10^9 leaves [int64_t]: the
    conversion has no defined result. *)
Theorem ConvertWinRtTime_overflows_on_early_timestamps
  (clock_period_ns ticks : Z) :
  0 <= ticks < 24211015640000000 ->
  Scanner.ConvertWinRtTime clock_period_ns ticks = Fault.
Proof.
  intros H. unfold Scanner.ConvertWinRtTime, Scanner.int64_checked.
  unfold Scanner.TICKS_PER_SECOND, Scanner.EPOCH_DIFFERENCE. cbv zeta.
  rewrite Z.quot_div_nonneg by lia.
  assert (ticks / 10000000 <= 2421101563) as Hq.
  { apply Z.lt_succ_r, Z.div_lt_upper_bound; lia. }
  replace (- 2 ^ 63 <=? (ticks / 10000000 - 11644473600) * 1000000000)
    with false; [reflexivity|].
  symmetry. apply Z.leb_gt.
  change (2 ^ 63) with 9223372036854775808. lia.
Qed.

Lemma ConvertWinRtTime_overflows_on_early_timestamps_witness :
  Scanner.ConvertWinRtTime 100 0 = Fault.
Proof.
  apply (ConvertWinRtTime_overflows_on_early_timestamps 100 0). lia.
Defined.

Section Pipeline.

Import Scanner.

Variable clock_period_ns : Z.
Context {W : Type}.

(** The clock value stored for a convertible timestamp. *)
Local Abbreviation stamp ticks :=
  (Z.quot (100 * (ticks - 116444736000000000)) clock_period_ns).

Lemma convert_ok (ticks : Z) :
  convertible ticks -> ConvertWinRtTime clock_period_ns ticks = Ok (stamp ticks).
Proof.
  intros H.
  destruct (conversion_in_range ticks H) as ((L1 & U1) & (L2 & U2) & E).
  unfold ConvertWinRtTime, int64_checked. cbv zeta.
  apply Z.leb_le in L1, L2. apply Z.ltb_lt in U1, U2.
  rewrite L1, U1. cbn [andb bind]. rewrite L2, U2. cbn [andb bind].
  now rewrite E.
Qed.

(** What the scanner stores for one section of a convertible advertisement. *)
Lemma process_apple (now address rssi ticks : Z) (data : list byte)
                    (rw : Registry.t W * W) :
  convertible ticks ->
  exists parsed,
    AppleContinuityParser.Parse data = Ok parsed /\
    ProcessManufacturerData clock_period_ns W now address rssi ticks data
      APPLE_COMPANY_ID rw =
    Ok (Registry.AddDevice
          (device_of address rssi (stamp ticks) data parsed) rw).
Proof.
  intros H. destruct (Parse_total data) as [parsed HP].
  exists parsed. split; [exact HP|].
  unfold ProcessManufacturerData. rewrite Z.eqb_refl. cbv zeta.
  rewrite (convert_ok ticks H). cbn [bind]. rewrite HP. cbn [bind].
  reflexivity.
Qed.

Lemma process_other (now address rssi ticks : Z) (data : list byte)
                    (companyId : Z) (rw : Registry.t W * W) :
  companyId <> APPLE_COMPANY_ID ->
  ProcessManufacturerData clock_period_ns W now address rssi ticks data
    companyId rw = Ok rw.
Proof.
  intros H. unfold ProcessManufacturerData.
  apply Z.eqb_neq in H. now rewrite H.
Qed.

Lemma loop_appends (now rssi ticks address : Z)
      (sections : list (Z * list byte)) :
  convertible ticks ->
  forall rw : Registry.t W * W,
  exists new rw',
    OnAdvertisementReceived_loop clock_period_ns W now rssi ticks address
      sections rw = Ok rw' /\
    Registry.devices_ (fst rw') = Registry.devices_ (fst rw) ++ new /\
    Registry.deviceCallback_ (fst rw') = Registry.deviceCallback_ (fst rw) /\
    snd rw' =
      fold_left (fun w d =>
                   Registry.notify_slot (Registry.deviceCallback_ (fst rw)) d w)
                new (snd rw) /\
    Forall2 (stored_for clock_period_ns address rssi ticks) (filter is_apple sections) new.
Proof.
  intros H. induction sections as [|[companyId data] sections IH]; intros rw.
  - exists [], rw. cbn. rewrite app_nil_r. repeat split; constructor.
  - cbn [OnAdvertisementReceived_loop filter].
    change (is_apple (companyId, data)) with (companyId =? APPLE_COMPANY_ID).
    destruct (Z.eqb_spec companyId APPLE_COMPANY_ID) as [->|Hne].
    + destruct (process_apple now address rssi ticks data rw H)
        as (parsed & HP & ->).
      cbn [bind].
      set (d := device_of address rssi (stamp ticks) data parsed).
      destruct (IH (Registry.AddDevice d rw))
        as (new & rw' & -> & Hd & Hc & Hw & Hf).
      exists (d :: new), rw'. split; [reflexivity|].
      rewrite AddDevice_devices in Hd.
      rewrite AddDevice_observer in Hw.
      assert (Registry.deviceCallback_ (fst (Registry.AddDevice d rw)) =
              Registry.deviceCallback_ (fst rw)) as Hslot.
      { destruct rw as [r w]. unfold Registry.AddDevice.
        cbn [Registry.deviceCallback_ fst].
        destruct (Registry.deviceCallback_ r); reflexivity. }
      rewrite Hslot in Hc, Hw.
      split; [rewrite Hd, <- app_assoc; reflexivity|].
      split; [exact Hc|]. split; [exact Hw|].
      constructor; [|exact Hf]. exists parsed. split; [exact HP|reflexivity].
    + rewrite (process_other now address rssi ticks data companyId rw Hne).
      cbn [bind]. apply IH.
Qed.

End Pipeline.

Section PipelineFacts.

Import AppleContinuityParser.

Lemma Parse_Some_iff_well_formed (data : list byte) :
  (exists t, Parse data = Ok (Some t)) <-> well_formed data.
Proof.
  unfold well_formed.
  destruct (Nat.lt_ge_cases (List.length data) 8) as [Hs|Hl].
  - rewrite (Parse_short data Hs). split.
    + intros [t H]. discriminate.
    + intros [H _]. lia.
  - destruct (vector_ge8 data Hl)
      as (b0 & b1 & b2 & b3 & b4 & b5 & b6 & b7 & rest & ->).
    rewrite Parse_cons8. cbn [nth_error].
    destruct (u8 b0 =? PROXIMITY_PAIRING_TYPE) eqn:E.
    + apply u8_is_7 in E. subst b0. split; [auto|].
      intros _. eexists. reflexivity.
    + split; [intros [t H]; discriminate|].
      intros [_ H]. injection H as ->. discriminate.
Qed.

(** A 48-bit address prints as at most twelve digits. *)
Lemma deviceId_length_48 (a : Z) :
  0 <= a < 2 ^ 48 ->
  String.length (pad_left 12 "0"%char (Text.hex_lower a)) = 12%nat.
Proof.
  intros Ha. rewrite pad_left_length.
  pose proof (hex_lower_aux_length_digits 11 16 a EmptyString) as H.
  change (16 ^ Z.of_nat 12) with (2 ^ 48) in H.
  specialize (H Ha ltac:(lia)). fold (Text.hex_lower a) in H.
  cbn [String.length] in H. lia.
Qed.

End PipelineFacts.

(** X12. [ProcessManufacturerData] ignores a section whose company
    identifier is not 76.  For company 76 and a convertible timestamp
    it appends exactly one device: the given address, signal strength
    and payload, the converted timestamp (not the constructor's clock
    reading), and the result of [Parse], which is present exactly when
    the payload is at least 8 bytes starting with 0x07; the device id
    of a 48-bit address has 12 characters. *)
Theorem ProcessManufacturerData_stores_apple_sections
  (clock_period_ns : Z) (W : Type) (now address rssi ticks companyId : Z)
  (data : list byte) (rw : Registry.t W * W) :
  Scanner.convertible ticks ->
  (companyId <> Scanner.APPLE_COMPANY_ID ->
   Scanner.ProcessManufacturerData clock_period_ns W now address rssi ticks
     data companyId rw = Ok rw) /\
  (companyId = Scanner.APPLE_COMPANY_ID ->
   exists d,
     Scanner.ProcessManufacturerData clock_period_ns W now address rssi ticks
       data companyId rw = Ok (Registry.AddDevice d rw) /\
     Scanner.stored_for clock_period_ns address rssi ticks (companyId, data) d /\
     (HasAirPodsData d = true <-> well_formed data) /\
     (0 <= address < 2 ^ 48 -> String.length (deviceId d) = 12%nat)).
Proof.
  intros H. split.
  - apply process_other.
  - intros ->.
    destruct (process_apple clock_period_ns now address rssi ticks data rw H)
      as (parsed & HP & Hrun).
    eexists. split; [exact Hrun|]. split; [|split].
    + exists parsed. split; [exact HP | reflexivity].
    + rewrite <- Parse_Some_iff_well_formed. rewrite HP.
      unfold HasAirPodsData, Scanner.device_of. cbn [airpodsData].
      destruct parsed as [t|]; split.
      * intros _. now exists t.
      * reflexivity.
      * discriminate.
      * intros [t Ht]. discriminate.
    + intros Ha. unfold Scanner.device_of. cbn [deviceId].
      now apply deviceId_length_48.
Qed.

Lemma ProcessManufacturerData_stores_apple_sections_witness :
  exists d,
    Scanner.ProcessManufacturerData 100 unit 0 0xa1b2c3d4 (-60)
      133500000000000000 payload_pro2 76 (Registry.init, tt)
    = Ok (Registry.AddDevice d (Registry.init, tt)) /\
    HasAirPodsData d = true.
Proof.
  destruct (ProcessManufacturerData_stores_apple_sections 100 unit 0
              0xa1b2c3d4 (-60) 133500000000000000 76 payload_pro2
              (Registry.init, tt)) as [_ Happle].
  - unfold Scanner.convertible. lia.
  - destruct (Happle eq_refl) as (d & Hrun & _ & Hhas & _).
    exists d. split; [exact Hrun|]. apply Hhas.
    split; [simpl; lia | reflexivity].
Defined.

(** X13. For an advertisement with a convertible timestamp,
    [OnAdvertisementReceived] appends one device per section of company
    76, in the order of the sections, and nothing for the others; each
    carries the advertisement's address and signal strength and its own
    section's payload and decoding.  The registered callback stays and
    is invoked once per appended device, in that order. *)
Theorem OnAdvertisementReceived_stores_every_apple_section
  (clock_period_ns : Z) (W : Type) (now : Z) (args : Scanner.Advertisement)
  (rw : Registry.t W * W) :
  Scanner.convertible (Scanner.Timestamp args) ->
  exists new rw',
    Scanner.OnAdvertisementReceived clock_period_ns W now args rw = Ok rw' /\
    Registry.GetDevices (fst rw') = Registry.GetDevices (fst rw) ++ new /\
    Forall2
      (Scanner.stored_for clock_period_ns (Scanner.BluetoothAddress args)
         (Scanner.RawSignalStrengthInDBm args) (Scanner.Timestamp args))
      (filter Scanner.is_apple (Scanner.ManufacturerData args)) new /\
    Registry.GetDeviceCount (fst rw') =
      (Registry.GetDeviceCount (fst rw)
       + List.length (filter Scanner.is_apple (Scanner.ManufacturerData args)))%nat /\
    Registry.deviceCallback_ (fst rw') = Registry.deviceCallback_ (fst rw) /\
    snd rw' =
      fold_left (fun w d =>
                   Registry.notify_slot (Registry.deviceCallback_ (fst rw)) d w)
                new (snd rw).
Proof.
  intros H. unfold Scanner.OnAdvertisementReceived. cbv zeta.
  destruct (loop_appends clock_period_ns now
              (Scanner.RawSignalStrengthInDBm args) (Scanner.Timestamp args)
              (Scanner.BluetoothAddress args) (Scanner.ManufacturerData args)
              H rw) as (new & rw' & Hrun & Hd & Hc & Hw & Hf).
  exists new, rw'. unfold Registry.GetDevices, Registry.GetDeviceCount.
  repeat split; try assumption.
  rewrite Hd, length_app. f_equal. symmetry. eapply Forall2_length. exact Hf.
Qed.

Lemma OnAdvertisementReceived_stores_every_apple_section_witness :
  exists rw',
    Scanner.OnAdvertisementReceived 100 unit 0 advertisement_two_apple
      (Registry.init, tt) = Ok rw' /\
    Registry.GetDeviceCount (fst rw') = 2%nat.
Proof.
  destruct (OnAdvertisementReceived_stores_every_apple_section 100 unit 0
              advertisement_two_apple (Registry.init, tt))
    as (new & rw' & Hrun & _ & _ & Hcount & _).
  - unfold Scanner.convertible. cbn. lia.
  - exists rw'. split; [exact Hrun|]. rewrite Hcount. reflexivity.
Defined.

(** * The v5 watcher beside the modular scanner *)

Section V5Pipeline.

Import V5Watcher.

(** The v5 decoder returns on every input, in step with [Parse]. *)
Lemma parsers_in_step (data : list byte) :
  exists r v,
    AppleContinuityParser.Parse data = Ok r /\
    V5.parse_airpods_data data = Ok v /\
    match r, v with
    | None, None => True
    | Some a, Some b => agree a b
    | _, _ => False
    end.
Proof.
  destruct (Nat.lt_ge_cases (List.length data) 8) as [Hs|Hl].
  - exists None, None. split; [now apply Parse_short|]. split; [|exact I].
    unfold V5.parse_airpods_data.
    change 8 with AppleContinuityParser.MIN_DATA_LENGTH.
    rewrite size_below_min. apply Nat.ltb_lt in Hs. now rewrite Hs.
  - destruct (vector_ge8 data Hl)
      as (b0 & b1 & b2 & b3 & b4 & b5 & b6 & b7 & rest & ->).
    rewrite Parse_cons8. unfold V5.parse_airpods_data.
    change 8 with AppleContinuityParser.MIN_DATA_LENGTH at 1.
    rewrite size_below_min.
    cbn [List.length Nat.ltb Nat.leb at_ nth_error bind].
    unfold AppleContinuityParser.PROXIMITY_PAIRING_TYPE.
    destruct (u8 b0 =? 0x07); cbn [negb].
    + rewrite sprintf_fits by (unfold to_uint16; apply Z.mod_pos_bound; lia).
      cbn [bind]. do 2 eexists. split; [reflexivity|]. split; [reflexivity|].
      unfold agree, AppleContinuityParser.telemetry. repeat split.
    + exists None, None. repeat split.
Qed.

Lemma filter_no_key (m : list (Z * list byte)) (k : Z) :
  existsb (fun e => fst e =? k) m = false ->
  filter (fun e => fst e =? k) m = [].
Proof.
  induction m as [|e m IH]; [reflexivity|]. cbn [existsb filter].
  intros H. apply orb_false_iff in H. destruct H as [He Hm].
  rewrite He. now apply IH.
Qed.

Lemma filter_has_key (m : list (Z * list byte)) (k : Z) :
  existsb (fun e => fst e =? k) m = true ->
  filter (fun e => fst e =? k) m <> [].
Proof.
  induction m as [|e m IH]; [discriminate|]. cbn [existsb filter].
  destruct (fst e =? k); [discriminate|]. exact IH.
Qed.

(** After all [try_emplace] calls the map holds, for company 76, the
    first Apple section and no other. *)
Lemma map_keeps_first_apple (sections : list (Z * list byte)) :
  forall m : list (Z * list byte),
    filter Scanner.is_apple
      (fold_left (fun m e => try_emplace m (fst e) (snd e)) sections m) =
    match filter Scanner.is_apple m with
    | [] => firstn 1 (filter Scanner.is_apple sections)
    | l => l
    end.
Proof.
  induction sections as [|[k v] sections IH]; intros m.
  - cbn [fold_left filter firstn]. now destruct (filter Scanner.is_apple m).
  - cbn [fold_left fst snd]. rewrite IH. unfold try_emplace.
    cbn [filter]. change (Scanner.is_apple (k, v)) with (k =? 76).
    destruct (existsb (fun e => fst e =? k) m) eqn:Ex.
    + destruct (Z.eqb_spec k 76) as [->|_]; [|reflexivity].
      apply filter_has_key in Ex.
      change (fun e : Z * list byte => fst e =? 76) with Scanner.is_apple in Ex.
      destruct (filter Scanner.is_apple m); [now elim Ex | reflexivity].
    + rewrite filter_app. cbn [filter].
      change (Scanner.is_apple (k, v)) with (k =? 76).
      destruct (Z.eqb_spec k 76) as [->|_].
      * apply filter_no_key in Ex.
        change (fun e : Z * list byte => fst e =? 76) with Scanner.is_apple in Ex.
        rewrite Ex. reflexivity.
      * rewrite app_nil_r. reflexivity.
Qed.

Lemma Permutation_filter_both {A : Type} (f : A -> bool) (l l' : list A) :
  Permutation l l' -> Permutation (filter f l) (filter f l').
Proof.
  induction 1 as [|x l l' _ IH|x y l|l l' l'' _ IH1 _ IH2]; cbn [filter].
  - constructor.
  - destruct (f x); [now constructor | exact IH].
  - destruct (f x), (f y); try apply Permutation_refl. constructor.
  - eapply Permutation_trans; eassumption.
Qed.

(** A list of at most one element has no other arrangement. *)
Lemma Permutation_firstn_1 {A : Type} (l l' : list A) :
  Permutation l' (firstn 1 l) -> l' = firstn 1 l.
Proof.
  destruct l as [|a l]; cbn [firstn]; intros H.
  - apply Permutation_sym, Permutation_nil in H. exact H.
  - apply Permutation_sym, Permutation_length_1_inv in H. exact H.
Qed.

Lemma OnReceived_loop_appends (rssi ticks address : Z)
      (entries : list (Z * list byte)) :
  forall devices : list BLEDevice,
  exists new,
    OnReceived_loop rssi ticks address entries devices = Ok (devices ++ new) /\
    Forall2 (v5_stored_for address rssi ticks)
            (filter Scanner.is_apple entries) new.
Proof.
  induction entries as [|[k v] entries IH]; intros devices.
  - exists []. cbn. rewrite app_nil_r. split; [reflexivity | constructor].
  - cbn [OnReceived_loop filter].
    change (Scanner.is_apple (k, v)) with (k =? 76).
    destruct (k =? 76).
    + rewrite sprintf_012llx_fits. cbn [bind].
      destruct (parsers_in_step v) as (r & pv & _ & Hpv & _).
      rewrite Hpv. cbn [bind].
      destruct (IH (devices ++
                    [mkBLEDevice (pad_left 12 "0"%char (Text.hex_lower address))
                                 address rssi v pv ticks]))
        as (new & -> & Hf).
      eexists (_ :: new). rewrite <- app_assoc. split; [reflexivity|].
      constructor; [|exact Hf]. exists pv. split; [exact Hpv | reflexivity].
    + apply IH.
Qed.

End V5Pipeline.

Section V5Facts.

Import V5Watcher.

Variable bucket_order : list (Z * list byte) -> list (Z * list byte).
Hypothesis bucket_order_perm : forall m, Permutation (bucket_order m) m.

(** Whatever the iteration order of the map, the loop meets exactly
    one entry of company 76 when the advertisement has an Apple
    section, and none otherwise. *)
Lemma OnReceived_first_apple (args : Scanner.Advertisement)
      (devices : list BLEDevice) :
  exists new,
    OnReceived bucket_order args devices = Ok (devices ++ new) /\
    Forall2 (v5_stored_for (Scanner.BluetoothAddress args)
               (Scanner.RawSignalStrengthInDBm args) (Scanner.Timestamp args))
            (firstn 1 (filter Scanner.is_apple (Scanner.ManufacturerData args)))
            new.
Proof.
  unfold OnReceived. cbv zeta.
  destruct (OnReceived_loop_appends (Scanner.RawSignalStrengthInDBm args)
              (Scanner.Timestamp args) (Scanner.BluetoothAddress args)
              (bucket_order (manufacturerDataMap (Scanner.ManufacturerData args)))
              devices) as (new & Hrun & Hf).
  exists new. split; [exact Hrun|].
  pose proof (Permutation_filter_both Scanner.is_apple _ _
                (bucket_order_perm
                   (manufacturerDataMap (Scanner.ManufacturerData args)))) as Hp.
  unfold manufacturerDataMap in Hp at 2.
  rewrite map_keeps_first_apple in Hp. cbn [filter] in Hp.
  apply Permutation_firstn_1 in Hp. rewrite Hp in Hf. exact Hf.
Qed.

Lemma same_observation_of_stored (clock_period_ns address rssi ticks : Z)
      (section : Z * list byte) (d : BleDevice) (v : BLEDevice) :
  Scanner.stored_for clock_period_ns address rssi ticks section d ->
  v5_stored_for address rssi ticks section v ->
  same_observation d v.
Proof.
  intros (pm & Hm & ->) (pv & Hv & ->).
  destruct (parsers_in_step (snd section)) as (r & w & Hr & Hw & Hrel).
  rewrite Hm in Hr. rewrite Hv in Hw.
  injection Hr as <-. injection Hw as <-.
  unfold same_observation.
  repeat (split; [reflexivity|]). exact Hrel.
Qed.

End V5Facts.

(** X14. Whatever order the map is visited in, the v5 [OnReceived]
    appends at most one device per advertisement: the one for the first
    section of company 76 (later Apple sections lose to [try_emplace]),
    with the advertisement's address, signal strength and timestamp,
    that section's payload and its decoding; it never faults. *)
Theorem OnReceived_keeps_first_apple_section
  (bucket_order : list (Z * list byte) -> list (Z * list byte))
  (args : Scanner.Advertisement) (devices : list V5Watcher.BLEDevice) :
  (forall m, Permutation (bucket_order m) m) ->
  exists new,
    V5Watcher.OnReceived bucket_order args devices = Ok (devices ++ new) /\
    (List.length new <= 1)%nat /\
    Forall2 (V5Watcher.v5_stored_for (Scanner.BluetoothAddress args)
               (Scanner.RawSignalStrengthInDBm args) (Scanner.Timestamp args))
            (firstn 1 (filter Scanner.is_apple (Scanner.ManufacturerData args)))
            new.
Proof.
  intros Hperm.
  destruct (OnReceived_first_apple bucket_order Hperm args devices)
    as (new & Hrun & Hf).
  exists new. split; [exact Hrun|]. split; [|exact Hf].
  apply Forall2_length in Hf. rewrite <- Hf, length_firstn. lia.
Qed.

Lemma OnReceived_keeps_first_apple_section_witness :
  exists new,
    V5Watcher.OnReceived (fun m => m) advertisement_two_apple [] = Ok new /\
    List.length new = 1%nat.
Proof.
  destruct (OnReceived_keeps_first_apple_section (fun m => m)
              advertisement_two_apple [] (fun m => Permutation_refl m))
    as (new & Hrun & _ & Hf).
  exists new. split; [exact Hrun|].
  apply Forall2_length in Hf. rewrite <- Hf. reflexivity.
Defined.

(** X15. On the same advertisement (convertible timestamp) the
    modular scanner stores one device per Apple section and the v5
    watcher stores only the first of them: the v5 device describes the
    same observation as the first device the modular scanner appends
    (same device id text, address, signal strength, payload, and
    telemetry agreeing field for field). *)
Theorem v5_watcher_stores_first_of_modular
  (clock_period_ns : Z) (W : Type) (now : Z)
  (bucket_order : list (Z * list byte) -> list (Z * list byte))
  (args : Scanner.Advertisement)
  (rw : Registry.t W * W) (devices : list V5Watcher.BLEDevice) :
  Scanner.convertible (Scanner.Timestamp args) ->
  (forall m, Permutation (bucket_order m) m) ->
  exists newM rw' newV,
    Scanner.OnAdvertisementReceived clock_period_ns W now args rw = Ok rw' /\
    Registry.GetDevices (fst rw') = Registry.GetDevices (fst rw) ++ newM /\
    V5Watcher.OnReceived bucket_order args devices = Ok (devices ++ newV) /\
    List.length newM =
      List.length (filter Scanner.is_apple (Scanner.ManufacturerData args)) /\
    Forall2 same_observation (firstn 1 newM) newV.
Proof.
  intros Hc Hperm. unfold Scanner.OnAdvertisementReceived. cbv zeta.
  destruct (loop_appends clock_period_ns now
              (Scanner.RawSignalStrengthInDBm args) (Scanner.Timestamp args)
              (Scanner.BluetoothAddress args) (Scanner.ManufacturerData args)
              Hc rw) as (newM & rw' & Hrun & Hd & _ & _ & Hm).
  destruct (OnReceived_first_apple bucket_order Hperm args devices)
    as (newV & HrunV & Hv).
  exists newM, rw', newV. unfold Registry.GetDevices.
  split; [exact Hrun|]. split; [exact Hd|]. split; [exact HrunV|].
  split; [symmetry; eapply Forall2_length; exact Hm|].
  destruct Hm as [|section d rest newM' Hsd Hrest]; cbn [firstn] in *.
  - inversion Hv. constructor.
  - inversion Hv as [|? v ? newV' Hsv Hnil]; subst.
    inversion Hnil; subst. constructor; [|constructor].
    eapply same_observation_of_stored; eassumption.
Qed.

Lemma v5_watcher_stores_first_of_modular_witness :
  exists rw' newV,
    Scanner.OnAdvertisementReceived 100 unit 0 advertisement_two_apple
      (Registry.init, tt) = Ok rw' /\
    V5Watcher.OnReceived (fun m => m) advertisement_two_apple [] = Ok newV /\
    Registry.GetDeviceCount (fst rw') = 2%nat /\
    List.length newV = 1%nat.
Proof.
  destruct (v5_watcher_stores_first_of_modular 100 unit 0 (fun m => m)
              advertisement_two_apple (Registry.init, tt) [])
    as (newM & rw' & newV & Hrun & Hd & HrunV & Hlen & Hsame).
  - unfold Scanner.convertible. cbn. lia.
  - intros m. apply Permutation_refl.
  - exists rw', newV. split; [exact Hrun|]. split; [exact HrunV|].
    unfold Registry.GetDeviceCount, Registry.GetDevices in *.
    split.
    + rewrite Hd. cbn [Registry.init Registry.devices_ fst app].
      rewrite Hlen. reflexivity.
    + apply Forall2_length in Hsame. rewrite <- Hsame.
      destruct newM as [|d newM]; [discriminate Hlen | reflexivity].
Defined.

(** * The collection over a run of calls *)

Section RegistryHistory.

Import Registry.

Context {W : Type}.

Lemma added_app (ops1 ops2 : list (op W)) :
  added (ops1 ++ ops2) = added ops1 ++ added ops2.
Proof.
  induction ops1 as [|o ops1 IH]; [reflexivity|].
  destruct o; cbn [app added]; now rewrite IH.
Qed.

(** The collection holds the devices added since the last [ClearDevices]. *)
Lemma devices_since_last_clear (ops : list (op W)) (w0 : W) :
  exists before after,
    ops = before ++ after /\
    existsb is_clear after = false /\
    (before = [] \/ exists b, before = b ++ [Clear]) /\
    devices_ (fst (run ops (init, w0))) = added after.
Proof.
  induction ops as [|o ops IH] using rev_ind.
  - exists [], []. repeat split. now left.
  - destruct IH as (before & after & -> & Hnc & Hb & Hd).
    rewrite run_snoc. destruct o as [device|callback|].
    + exists before, (after ++ [Add device]).
      rewrite app_assoc. split; [reflexivity|].
      rewrite existsb_app, Hnc. split; [reflexivity|]. split; [exact Hb|].
      cbn [exec]. rewrite AddDevice_devices, Hd, added_app. reflexivity.
    + exists before, (after ++ [Register callback]).
      rewrite app_assoc. split; [reflexivity|].
      rewrite existsb_app, Hnc. split; [reflexivity|]. split; [exact Hb|].
      cbn [exec fst RegisterCallback devices_]. rewrite Hd, added_app.
      cbn [added]. now rewrite app_nil_r.
    + exists ((before ++ after) ++ [Clear]), [].
      rewrite app_nil_r. split; [reflexivity|]. split; [reflexivity|].
      split; [right; now exists (before ++ after) | reflexivity].
Qed.

(** A registered callback sees every device added while it is the
    one registered, cleared later or not. *)
Lemma callback_sees_every_add (callback : DeviceCallback W) (ops : list (op W)) :
  existsb is_register ops = false ->
  forall rw : t W * W,
    deviceCallback_ (fst rw) = Some callback ->
    deviceCallback_ (fst (run ops rw)) = Some callback /\
    snd (run ops rw) =
      fold_left (fun w d => callback d w) (added ops) (snd rw).
Proof.
  induction ops as [|o ops IH]; intros Hnr rw Hslot; [now split|].
  cbn [existsb] in Hnr. apply orb_false_iff in Hnr. destruct Hnr as [Ho Hnr].
  change (run (o :: ops) rw) with (run ops (exec rw o)).
  destruct o as [device|cb|]; [| discriminate Ho |].
  - cbn [exec added fold_left].
    assert (deviceCallback_ (fst (AddDevice device rw)) = Some callback) as Hs.
    { destruct rw as [r w]. cbn [fst] in Hslot. unfold AddDevice.
      cbn [deviceCallback_]. rewrite Hslot. reflexivity. }
    destruct (IH Hnr _ Hs) as [Hs' Hw]. split; [exact Hs'|].
    rewrite Hw, AddDevice_observer, Hslot. reflexivity.
  - cbn [exec added]. apply (IH Hnr (ClearDevices (fst rw), snd rw)).
    exact Hslot.
Qed.

End RegistryHistory.

(** X16. After any calls on a fresh scanner the collection holds
    exactly the devices added since the last [ClearDevices] (all added
    devices when there was none), in the order added.  [ClearDevices]
    neither unregisters the callback nor takes back notifications: a
    callback registered before a run of [AddDevice] and [ClearDevices]
    calls has been invoked once on every device added in the run, in
    order, and is still registered. *)
Theorem collection_holds_adds_since_last_clear
  (W : Type) (ops : list (Registry.op W)) (w0 : W) :
  (exists before after,
     ops = before ++ after /\
     existsb is_clear after = false /\
     (before = [] \/ exists b, before = b ++ [Registry.Clear]) /\
     Registry.GetDevices (fst (Registry.run ops (Registry.init, w0)))
       = added after) /\
  (forall callback : Registry.DeviceCallback W,
     existsb is_register ops = false ->
     let rw := Registry.run (Registry.Register callback :: ops)
                 (Registry.init, w0) in
     Registry.deviceCallback_ (fst rw) = Some callback /\
     snd rw = fold_left (fun w d => callback d w) (added ops) w0).
Proof.
  split; [apply devices_since_last_clear|].
  intros callback Hnr rw. subst rw.
  change (Registry.run (Registry.Register callback :: ops) (Registry.init, w0))
    with (Registry.run ops
            (Registry.RegisterCallback callback Registry.init, w0)).
  apply (callback_sees_every_add callback ops Hnr
           (Registry.RegisterCallback callback Registry.init, w0)).
  reflexivity.
Qed.

(** * The restart loop on its own, and after the destructor *)

Section LifecycleRuns.

Import Lifecycle.

Lemma run_app (a b : list label) (s : t) :
  run (a ++ b) s =
  match run a s with
  | Some s' => run b s'
  | None => None
  end.
Proof.
  revert s. induction a as [|l a IH]; intros s; cbn [app run]; [reflexivity|].
  destruct (step l s); [apply IH | reflexivity].
Qed.

(** [k] failed rounds bring the loop back to its check, [k] calls later. *)
Lemma failed_rounds (k : nat) :
  forall lg : list event,
    run (List.concat (repeat failed_round k)) (mk false false HCheck lg) =
    Some (mk false false HCheck (lg ++ repeat EvRetryStart k)).
Proof.
  induction k as [|k IH]; intros lg.
  - cbn. now rewrite app_nil_r.
  - cbn [repeat List.concat]. rewrite run_app.
    change (run failed_round (mk false false HCheck lg))
      with (Some (mk false false HCheck (lg ++ [EvRetryStart]))).
    cbv beta iota. rewrite IH, <- app_assoc. reflexivity.
Qed.

(** After the destructor no step leads into the loop. *)
Lemma torn_down_step (l : label) (s s' : t) :
  torn_down s -> step l s = Some s' ->
  torn_down s' /\ adds_no_retry s s'.
Proof.
  intros [Hd Hpc] Hstep. destruct s as [sr dr p lg].
  cbn [destroyRequested_ pc] in Hd, Hpc. subst dr.
  unfold torn_down.
  destruct l as [|ok|ok|ok|]; cbn in Hstep.
  - destruct Hpc as [-> | ->]; [|discriminate].
    injection Hstep as <-. split; [split; [reflexivity|now right]|].
    now apply adds_no_retry_same_log.
  - destruct Hpc as [-> | ->]; [discriminate|].
    injection Hstep as <-. split; [split; [reflexivity|now left]|].
    now apply adds_no_retry_same_log.
  - injection Hstep as <-. split; [split; [reflexivity|exact Hpc]|].
    exists [EvUserStart]. split; reflexivity.
  - injection Hstep as <-. split; [split; [reflexivity|exact Hpc]|].
    exists [EvStopFlag]. split; reflexivity.
  - injection Hstep as <-. split; [split; [reflexivity|exact Hpc]|].
    now apply adds_no_retry_same_log.
Qed.

End LifecycleRuns.

(** X17. When the source reports "stopped" with neither flag set and
    the handler runs undisturbed, the loop calls [Start()] again only
    after a failure that [Start()] catches: if the watcher throws a
    [std::exception] [k] times and then either starts or throws
    something else, the loop calls [Start()] exactly [k + 1] times and
    the handler then ends, with the stop flag clear. *)
Theorem restart_loop_retries_caught_failures_only
  (k : nat) (r : Lifecycle.watcher_result) (s : Lifecycle.t) :
  Lifecycle.pc s = Lifecycle.HIdle ->
  Lifecycle.stopRequested_ s = false ->
  Lifecycle.destroyRequested_ s = false ->
  r <> Lifecycle.ThrowsStd ->
  Lifecycle.run (retry_schedule k r) s =
  Some (Lifecycle.mk false false Lifecycle.HIdle
          (Lifecycle.log s ++ repeat Lifecycle.EvRetryStart (S k))).
Proof.
  destruct s as [sr dr p lg]. cbn [Lifecycle.pc Lifecycle.stopRequested_
    Lifecycle.destroyRequested_ Lifecycle.log].
  intros -> -> -> Hr. unfold retry_schedule.
  rewrite run_app.
  change (Lifecycle.run
            [Lifecycle.SourceStopped; Lifecycle.Handler Lifecycle.Returns;
             Lifecycle.Handler Lifecycle.Returns]
            (Lifecycle.mk false false Lifecycle.HIdle lg))
    with (Some (Lifecycle.mk false false Lifecycle.HCheck lg)).
  cbv beta iota. rewrite run_app, failed_rounds.
  assert (repeat Lifecycle.EvRetryStart (S k) =
          repeat Lifecycle.EvRetryStart k ++ [Lifecycle.EvRetryStart]) as E.
  { change [Lifecycle.EvRetryStart] with (repeat Lifecycle.EvRetryStart 1).
    rewrite <- repeat_app. f_equal. lia. }
  rewrite E, app_assoc.
  destruct r; [reflexivity | now elim Hr | reflexivity].
Qed.

Lemma restart_loop_retries_caught_failures_only_witness :
  option_map Lifecycle.log
    (Lifecycle.run (retry_schedule 2 Lifecycle.ThrowsOther) Lifecycle.init) =
  Some [Lifecycle.EvRetryStart; Lifecycle.EvRetryStart; Lifecycle.EvRetryStart].
Proof.
  rewrite (restart_loop_retries_caught_failures_only 2 Lifecycle.ThrowsOther
             Lifecycle.init eq_refl eq_refl eq_refl);
    [reflexivity | discriminate].
Defined.

(** X18. Once the destructor has set the destroy flag and the handler
    is outside the loop, no execution makes the restart loop call
    [Start()] again: each later "stopped" report sends the handler
    straight back, and no call of the consumer, [Start()] included,
    clears the destroy flag. *)
Theorem no_restart_after_destructor
  (sched : list Lifecycle.label) (s s' : Lifecycle.t) :
  torn_down s ->
  Lifecycle.run sched s = Some s' ->
  torn_down s' /\
  exists evs,
    Lifecycle.log s' = Lifecycle.log s ++ evs /\
    existsb Lifecycle.is_retry evs = false.
Proof.
  revert s. induction sched as [|l sched IH]; intros s Hs Hrun.
  - injection Hrun as <-. split; [exact Hs | apply adds_no_retry_refl].
  - cbn [Lifecycle.run] in Hrun.
    destruct (Lifecycle.step l s) as [s1|] eqn:Hstep; [|discriminate].
    destruct (torn_down_step l s s1 Hs Hstep) as [Hs1 A1].
    destruct (IH s1 Hs1 Hrun) as [Hs' A2].
    split; [exact Hs'|]. exact (adds_no_retry_trans _ _ _ A1 A2).
Qed.

Lemma no_restart_after_destructor_witness :
  exists s',
    Lifecycle.run after_destructor (Lifecycle.Destructor Lifecycle.init)
      = Some s' /\
    existsb Lifecycle.is_retry (Lifecycle.log s') = false.
Proof.
  eexists. split; [reflexivity|].
  destruct (no_restart_after_destructor after_destructor
              (Lifecycle.Destructor Lifecycle.init) _
              (conj eq_refl (or_introl eq_refl)) eq_refl)
    as (_ & evs & Hlog & Hno).
  reflexivity.
Defined.

(** * The test program's reader of hexadecimal text *)

(** X19. [hex_to_bytes] yields one byte for every started pair of
    characters, whatever the characters are: a text of [n] characters
    gives (n + 1) / 2 bytes, so an odd last character still gives a
    byte and the empty text gives none. *)
Theorem hex_to_bytes_length (hex : string) :
  List.length (hex_to_bytes hex) = ((String.length hex + 1) / 2)%nat.
Proof.
  assert (forall s,
            List.length (hex_to_bytes s) = ((String.length s + 1) / 2)%nat /\
            forall c, List.length (hex_to_bytes (String c s)) =
                      ((String.length (String c s) + 1) / 2)%nat) as H.
  { induction s as [|c2 s [IH1 IH2]].
    - split; [reflexivity | intros c; reflexivity].
    - split; [apply IH2|]. intros c.
      cbn [hex_to_bytes List.length String.length]. rewrite IH1.
      replace (S (S (String.length s)) + 1)%nat
        with (String.length s + 1 + 1 * 2)%nat by lia.
      rewrite Nat.div_add by lia. lia. }
  apply H.
Qed.
